(** * gokvstore: the write-ahead journal, the snapshot and the store

    A shallow embedding of [log.go] and [main.go].  The store keeps a
    [map[string]any] in memory, appends every mutation to a journal
    file through a buffered writer, and rebuilds the map on start-up by
    loading a gob snapshot and replaying the journal on top of it.

    What the Go code takes from its libraries is modelled in modules
    named after the packages: [binary] (big-endian integers), [crc32]
    (the IEEE checksum), [bufio] (the buffered writer), [os] (files as
    byte lists indexed by path).  The gob codec and the points at which
    the disk refuses a write are parameters of the development
    (classes [Gob] and [Disk]). *)

From Stdlib Require Import ZArith Lia.
From Stdlib.Strings Require Import Byte.
From stdpp Require Import base option list strings gmap.

Local Open Scope Z_scope.

(** ** Bytes and unsigned integers *)

(** The numeric value of a byte, and Go's conversion [byte(x)] of an
    unsigned integer, which keeps the low eight bits. *)
Definition byte_to_Z (b : byte) : Z := Z.of_N (Byte.to_N b).

Definition byte_of_Z (z : Z) : byte :=
  match Byte.of_N (Z.to_N (z mod 256)) with
  | Some b => b
  | None => x00
  end.

(** [uint32(n)] for a non-negative [int]. *)
Definition uint32 (z : Z) : Z := z mod 2 ^ 32.

Module binary.

(** [binary.BigEndian.PutUint32(b, v)], as the four bytes it stores. *)
Definition BigEndian_PutUint32 (v : Z) : list byte :=
  [ byte_of_Z (Z.shiftr v 24); byte_of_Z (Z.shiftr v 16);
    byte_of_Z (Z.shiftr v 8); byte_of_Z v ].

(** [binary.BigEndian.Uint32(b)] on a slice of four bytes. *)
Definition BigEndian_Uint32 (b0 b1 b2 b3 : byte) : Z :=
  Z.lor (Z.lor (Z.lor (byte_to_Z b3) (Z.shiftl (byte_to_Z b2) 8))
               (Z.shiftl (byte_to_Z b1) 16))
        (Z.shiftl (byte_to_Z b0) 24).

End binary.

Module crc32.

(** The reversed IEEE polynomial, [crc32.IEEE]. *)
Definition IEEE : Z := 0xedb88320.

(** One turn of the inner loop of [simplePopulateTable]. *)
Definition shift1 (crc : Z) : Z :=
  if Z.testbit crc 0 then Z.lxor (Z.shiftr crc 1) IEEE else Z.shiftr crc 1.

(** Entry [i] of the table built by [simpleMakeTable(IEEE)]. *)
Definition tableEntry (i : Z) : Z := Nat.iter 8 shift1 i.

(** The body of the loop of [simpleUpdate]:
    [crc = tab[byte(crc)^v] ^ (crc >> 8)]. *)
Definition updateByte (crc : Z) (v : byte) : Z :=
  Z.lxor (tableEntry (Z.lxor (Z.land crc 255) (byte_to_Z v))) (Z.shiftr crc 8).

(** [^crc] on a [uint32]. *)
Definition not32 (crc : Z) : Z := Z.lxor crc 0xffffffff.

(** [crc32.ChecksumIEEE(p)]: [simpleUpdate(0, IEEETable, p)]. *)
Definition ChecksumIEEE (p : list byte) : Z :=
  not32 (fold_left updateByte p (not32 0)).

(** The top byte of a table entry, and the check that no two of the
    256 entries have the same one. *)
Definition topByte (i : Z) : Z := Z.shiftr (tableEntry i) 24.

Definition indices : list Z := map Z.of_nat (seq 0 256).

Definition topByte_distinct : bool :=
  forallb (fun i => forallb (fun j => implb (topByte i =? topByte j) (i =? j)) indices) indices.

End crc32.

(** ** Errors *)

(** The errors of the package: its two sentinels, the errors its
    libraries hand back, and the two shapes of [fmt.Errorf]: a plain
    message (its formatted numbers left out) and a message wrapping
    another error with [%w]. *)
Inductive error : Type :=
  | ErrNotReady
  | ErrJournalCorrupt
  | EOF
  | ErrShortWrite
  | ErrNotExist
  | ErrClosed
  | ErrDisk
  | ErrGob
  | Errorf (msg : string)
  | Wrap (msg : string) (e : error).

(** [errors.Is(e, ErrJournalCorrupt)]. *)
Fixpoint isJournalCorrupt (e : error) : bool :=
  match e with
  | ErrJournalCorrupt => true
  | Wrap _ e' => isJournalCorrupt e'
  | _ => false
  end.

(** ** The frame codec ([log.go]) *)

(** [type Op uint8]: an operation tag is a number below 256. *)
Definition Op : Type := Z.
Definition OpSet : Op := 1.
Definition OpUnset : Op := 2.

(** [jEncode]: nine bytes, the tag, then length and checksum. *)
Definition jEncode (op : Op) (length crc : Z) : list byte :=
  byte_of_Z op :: binary.BigEndian_PutUint32 length ++ binary.BigEndian_PutUint32 crc.

(** [jDecode]: fails unless it is given exactly nine bytes. *)
Definition jDecode (buf : list byte) : (Op * Z * Z) + error :=
  match buf with
  | [t; l0; l1; l2; l3; c0; c1; c2; c3] =>
      inl (byte_to_Z t, binary.BigEndian_Uint32 l0 l1 l2 l3,
           binary.BigEndian_Uint32 c0 c1 c2 c3)
  | _ => inr (Errorf "expected 9 bytes")
  end.

(** ** What the package takes from its environment *)

(** [type Tx struct { Key string; Value any }]. *)
Record Tx (any : Type) : Type := mkTx { Key : string; Value : any }.
Arguments mkTx {any} Key Value.
Arguments Key {any} t.
Arguments Value {any} t.

(** The gob codec over the dynamically typed values of the store.
    [nil_any] is the nil interface value; an encoder answers [None]
    when gob refuses the value (a type that was not registered, a
    channel, a function), a decoder when the bytes are not a gob
    stream of the expected type. *)
Class Gob (any : Type) : Type := {
  nil_any : any;
  gobEncodeTx : Tx any -> option (list byte);
  gobDecodeTx : list byte -> option (Tx any);
  gobEncodeMap : gmap string any -> option (list byte);
  gobDecodeMap : list byte -> option (gmap string any)
}.

(** What gob promises for the values it accepts: decoding what was
    encoded gives the value back. *)
Class GobRoundTrip (any : Type) `{Gob any} : Prop := {
  gob_tx_roundtrip : forall (tx : Tx any) (b : list byte),
      gobEncodeTx tx = Some b -> gobDecodeTx b = Some tx;
  gob_map_roundtrip : forall (m : gmap string any) (b : list byte),
      gobEncodeMap m = Some b -> gobDecodeMap b = Some m
}.

(** The disk decides which writes go wrong: [write_fault path content p]
    is [None] when appending [p] to the file at [path] succeeds, and
    [Some k] when the write stops with an error after [k] bytes. *)
Class Disk : Type := {
  write_fault : string -> list byte -> list byte -> option nat
}.

Module os.

(** The files of the machine, by path. *)
Abbreviation files := (gmap string (list byte)).

(** An [*os.File] opened for writing. *)
Record File : Type := mkFile { path : string; closed : bool }.

(** [os.Stat(name)] returns no error exactly when the file exists. *)
Definition Stat (name : string) (fs : files) : bool :=
  match fs !! name with Some _ => true | None => false end.

(** [os.Create(name)]: the file is created or truncated. *)
Definition Create (name : string) (fs : files) : File * files :=
  (mkFile name false, <[name := []]> fs).

Definition Close (f : File) : File := mkFile (path f) true.

(** [os.Remove(name)]: the file is unlinked; it is an error when there
    is no such file. *)
Definition Remove (name : string) (fs : files) : files * option error :=
  match fs !! name with
  | Some _ => (delete name fs, None)
  | None => (fs, Some ErrNotExist)
  end.

(** [f.Read(buf)] with [len(buf) = n] on a file whose unread bytes
    are [rd]: the bytes read, the bytes left and the error.  An empty
    buffer reads nothing and is no error; at the end of the file the
    error is [io.EOF]; otherwise a regular file gives as many bytes
    as it has, up to [n]. *)
Definition Read (n : nat) (rd : list byte) : list byte * list byte * option error :=
  match n, rd with
  | O, _ => ([], rd, None)
  | _, [] => ([], rd, Some EOF)
  | _, _ => (take n rd, drop n rd, None)
  end.

Section write.
Context `{Disk}.

(** [f.Write(p)]: the bytes go to the end of the file. *)
Definition Write (f : File) (p : list byte) (fs : files) : nat * option error * files :=
  if closed f then (O, Some ErrClosed, fs)
  else
    let cur := default [] (fs !! path f) in
    match write_fault (path f) cur p with
    | None => (length p, None, <[path f := cur ++ p]> fs)
    | Some k =>
        let n := Nat.min k (length p) in
        (n, Some ErrDisk, <[path f := cur ++ take n p]> fs)
    end.
End write.

End os.

Module bufio.

(** [bufio.Writer]: the bytes not yet written and the sticky error. *)
Record Writer : Type := mkWriter { buf : list byte; err : option error }.

Definition defaultBufSize : nat := 4096.

(** [bufio.NewWriter(fh)]. *)
Definition NewWriter : Writer := mkWriter [] None.

Definition Buffered (b : Writer) : nat := length (buf b).
Definition Available (b : Writer) : nat := (defaultBufSize - length (buf b))%nat.

Section writer.
Context `{Disk}.

(** [b.Flush()]. *)
Definition Flush (fh : os.File) (b : Writer) (fs : os.files)
  : Writer * os.files * option error :=
  match err b with
  | Some e => (b, fs, Some e)
  | None =>
      if (Buffered b =? 0)%nat then (b, fs, None)
      else
        let '(n, e, fs') := os.Write fh (buf b) fs in
        let e := match e with
                 | None => if (n <? Buffered b)%nat then Some ErrShortWrite else None
                 | Some _ => e
                 end in
        match e with
        | Some e => (mkWriter (drop n (buf b)) (Some e), fs', Some e)
        | None => (mkWriter [] None, fs', None)
        end
  end.

(** The [for] loop of [b.Write(p)]: while [p] does not fit and no
    error is pending, either write [p] straight to the file (empty
    buffer) or fill the buffer and flush it. *)
Fixpoint writeLoop (fuel : nat) (fh : os.File) (b : Writer) (p : list byte)
    (nn : nat) (fs : os.files) : Writer * list byte * nat * os.files :=
  match fuel with
  | O => (b, p, nn, fs)
  | S fuel' =>
      if (Available b <? length p)%nat && negb (bool_decide (is_Some (err b))) then
        if (Buffered b =? 0)%nat then
          let '(n, e, fs') := os.Write fh p fs in
          writeLoop fuel' fh (mkWriter (buf b) e) (drop n p) (nn + n)%nat fs'
        else
          let n := Nat.min (Available b) (length p) in
          let '(b', fs', _) := Flush fh (mkWriter (buf b ++ take n p) (err b)) fs in
          writeLoop fuel' fh b' (drop n p) (nn + n)%nat fs'
      else (b, p, nn, fs)
  end.

(** [b.Write(p)].  The loop runs at most twice (lemma
    [writeLoop_exit]), so three units of fuel let it finish. *)
Definition Write (fh : os.File) (b : Writer) (p : list byte) (fs : os.files)
  : Writer * os.files * nat * option error :=
  let '(b1, p1, nn, fs1) := writeLoop 3 fh b p O fs in
  match err b1 with
  | Some e => (b1, fs1, nn, Some e)
  | None =>
      let n := Nat.min (Available b1) (length p1) in
      (mkWriter (buf b1 ++ take n p1) None, fs1, (nn + n)%nat, None)
  end.
End writer.

End bufio.

(** ** The journal ([log.go]) *)

(** [type journal struct]: the file handle, the buffered writer over
    it, and the path. *)
Record journal : Type := mkJournal {
  fh : os.File;
  bufWriter : bufio.Writer;
  name : string
}.

Section Journal.
Context {any : Type} `{Gob any} `{Disk}.

Abbreviation kvMap := (gmap string any).

(** The [switch op] at the end of the body of the replay loop. *)
Definition applyTx (op : Op) (tx : Tx any) (m : kvMap) : kvMap :=
  if op =? OpSet then <[Key tx := Value tx]> m
  else if op =? OpUnset then delete (Key tx) m
  else m.

(** One turn of the [for] loop of [play] on the unread bytes [rd] of
    the file: the loop is left with a map and an error ([break] and
    [return]), or goes round again with what is left to read. *)
Inductive turn : Type :=
  | Stop (m : kvMap) (e : option error)
  | Again (rd : list byte) (m : kvMap).

Definition playRecord (rd : list byte) (m : kvMap) : turn :=
  let '(header, rd1, e) := os.Read 9 rd in
  match e with
  | Some EOF => Stop m None
  | Some e => Stop m (Some (Wrap "read header" e))
  | None =>
      if negb (length header =? 9)%nat then
        Stop m (Some (Errorf "read header: expected 9 bytes"))
      else
        match jDecode header with
        | inr e => Stop m (Some (Wrap "decode header" e))
        | inl (op, buflen, checksum) =>
            let '(b, rd2, e) := os.Read (Z.to_nat buflen) rd1 in
            match e with
            | Some e => Stop m (Some (Wrap "read buffer" e))
            | None =>
                if negb (Z.of_nat (length b) =? buflen) then
                  Stop m (Some (Errorf "read buffer: short read"))
                else if negb (crc32.ChecksumIEEE b =? checksum) then
                  Stop m (Some ErrJournalCorrupt)
                else
                  match gobDecodeTx b with
                  | None => Stop m (Some (Wrap "decode tx" ErrGob))
                  | Some tx => Again rd2 (applyTx op tx m)
                  end
            end
        end
  end.

(** The loop itself.  Every turn that goes round again has taken at
    least nine bytes, so fuel above the number of unread bytes is
    never used up (lemma [playLoop_fuel]). *)
Fixpoint playLoop (fuel : nat) (rd : list byte) (m : kvMap) : kvMap * option error :=
  match fuel with
  | O => (m, None)
  | S fuel' =>
      match playRecord rd m with
      | Stop m' e => (m', e)
      | Again rd' m' => playLoop fuel' rd' m'
      end
  end.

(** [play]: open the journal and replay it into the map. *)
Definition play (filename : string) (m : kvMap) (fs : os.files) : kvMap * option error :=
  match fs !! filename with
  | None => (m, Some (Wrap "open journal" ErrNotExist))
  | Some data => playLoop (S (length data)) data m
  end.

(** [newJournal]: replay the journal if it exists, then create it
    anew.  The map is the one the caller passed by pointer. *)
Definition newJournal (filename : string) (kv : kvMap) (fs : os.files)
  : (journal + error) * kvMap * os.files :=
  let '(kv1, e) := if os.Stat filename fs then play filename kv fs else (kv, None) in
  match e with
  | Some e => (inr (Wrap "play" e), kv1, fs)
  | None =>
      let '(f, fs') := os.Create filename fs in
      (inl (mkJournal f bufio.NewWriter filename), kv1, fs')
  end.

Definition flush (j : journal) (fs : os.files) : journal * os.files * option error :=
  let '(b, fs', e) := bufio.Flush (fh j) (bufWriter j) fs in
  (mkJournal (fh j) b (name j), fs',
   match e with Some e => Some (Wrap "flush" e) | None => None end).

Definition close (j : journal) (fs : os.files) : journal * os.files * option error :=
  let '(j1, fs1, e) := flush j fs in
  match e with
  | Some e => (j1, fs1, Some (Wrap "flush journal" e))
  | None => (mkJournal (os.Close (fh j1)) (bufWriter j1) (name j1), fs1, None)
  end.

Definition truncate (j : journal) (fs : os.files) : journal * os.files * option error :=
  let '(j1, fs1, e) := close j fs in
  match e with
  | Some e => (j1, fs1, Some (Wrap "close" e))
  | None =>
      let '(f, fs2) := os.Create (name j1) fs1 in
      (mkJournal f bufio.NewWriter (name j1), fs2, None)
  end.

(** [delete]: remove the journal file. *)
Definition delete_ (j : journal) (fs : os.files) : os.files * option error :=
  match os.Remove (name j) fs with
  | (fs', Some e) => (fs', Some (Wrap "delete, remove" e))
  | (fs', None) => (fs', None)
  end.

(** [log]: frame one transaction and hand it to the buffered writer. *)
Definition log (j : journal) (fs : os.files) (op : Op) (key : string) (value : any)
  : journal * os.files * option error :=
  match gobEncodeTx (mkTx key value) with
  | None => (j, fs, Some (Wrap "encode tx" ErrGob))
  | Some b =>
      let buflen := uint32 (Z.of_nat (length b)) in
      let checksum := crc32.ChecksumIEEE b in
      let header := jEncode op buflen checksum in
      let '(w1, fs1, n, e) := bufio.Write (fh j) (bufWriter j) header fs in
      let j1 := mkJournal (fh j) w1 (name j) in
      match e with
      | Some e => (j1, fs1, Some (Wrap "write header" e))
      | None =>
          if negb (n =? 9)%nat then (j1, fs1, Some (Errorf "header write: expected 9 bytes"))
          else
            let '(w2, fs2, n, e) := bufio.Write (fh j) w1 b fs1 in
            let j2 := mkJournal (fh j) w2 (name j) in
            match e with
            | Some e => (j2, fs2, Some (Wrap "write buffer" e))
            | None =>
                if negb (Z.of_nat n =? buflen) then
                  (j2, fs2, Some (Errorf "buffer write: short write"))
                else (j2, fs2, None)
            end
      end
  end.

(** A run of appends, as [Set] and [Unset] make them one after the
    other, stopped by the first that fails. *)
Fixpoint logAll (j : journal) (fs : os.files) (ops : list (Op * string * any))
  : journal * os.files * option error :=
  match ops with
  | [] => (j, fs, None)
  | (op, key, value) :: ops' =>
      match log j fs op key value with
      | (j', fs', None) => logAll j' fs' ops'
      | r => r
      end
  end.

(** The bytes of one record as [log] writes it: the header for the
    payload, then the payload. *)
Definition frame (r : Op * list byte) : list byte :=
  jEncode r.1 (Z.of_nat (length r.2)) (crc32.ChecksumIEEE r.2) ++ r.2.

Definition frames (recs : list (Op * list byte)) : list byte :=
  concat (map frame recs).

(** A record that the replay accepts: the tag is a byte, the length
    fits the header, the payload is a gob transaction. *)
Definition validRecord (r : Op * list byte) : Prop :=
  0 <= r.1 < 256 /\ Z.of_nat (length r.2) < 2 ^ 32 /\ is_Some (gobDecodeTx r.2).

(** What a record does to the map when it is replayed. *)
Definition applyRecord (m : kvMap) (r : Op * list byte) : kvMap :=
  match gobDecodeTx r.2 with
  | Some tx => applyTx r.1 tx m
  | None => m
  end.

Definition replay (recs : list (Op * list byte)) (m : kvMap) : kvMap :=
  fold_left applyRecord recs m.

End Journal.

(** ** The store ([main.go]) *)

(** [type KV struct].  [mu] tells whether the mutex is held, [ready]
    is the atomic flag; the time of the last flush is left out. *)
Record KV (any : Type) : Type := mkKV {
  memory : gmap string any;
  fileName : string;
  kvJournal : journal;
  mu : bool;
  ready : bool
}.
Arguments mkKV {any} memory fileName kvJournal mu ready.
Arguments memory {any} k.
Arguments fileName {any} k.
Arguments kvJournal {any} k.
Arguments mu {any} k.
Arguments ready {any} k.

(** What a call on the store comes to: it returns a result and leaves
    a store and a disk, or it waits for ever on a mutex that is held. *)
Inductive outcome (any R : Type) : Type :=
  | Returns (r : R) (kv : KV any) (fs : os.files)
  | Blocks.
Arguments Returns {any R} r kv fs.
Arguments Blocks {any R}.

Section Store.
Context {any : Type} `{Gob any} `{Disk}.

Abbreviation kvMap := (gmap string any).

(** [kv.mu.Lock()] and [kv.mu.Unlock()]. *)
Definition Lock (kv : KV any) : option (KV any) :=
  if mu kv then None
  else Some (mkKV (memory kv) (fileName kv) (kvJournal kv) true (ready kv)).

Definition Unlock (kv : KV any) : KV any :=
  mkKV (memory kv) (fileName kv) (kvJournal kv) false (ready kv).

Definition withMemory (kv : KV any) (m : kvMap) : KV any :=
  mkKV m (fileName kv) (kvJournal kv) (mu kv) (ready kv).

Definition withJournal (kv : KV any) (j : journal) : KV any :=
  mkKV (memory kv) (fileName kv) j (mu kv) (ready kv).

Definition withReady (kv : KV any) (r : bool) : KV any :=
  mkKV (memory kv) (fileName kv) (kvJournal kv) (mu kv) r.

(** [loadFromGob]: decode the snapshot file into a map. *)
Definition loadFromGob (dbName : string) (fs : os.files) : kvMap + error :=
  match fs !! dbName with
  | None => inr (Wrap "opening file" ErrNotExist)
  | Some data =>
      match gobDecodeMap data with
      | None => inr (Wrap "decoding map" ErrGob)
      | Some m => inl m
      end
  end.

(** The encoder of [createEmptyGob] and [dump], writing a map to the
    file it was given. *)
Definition encodeMapTo (f : os.File) (m : kvMap) (fs : os.files) : os.files * option error :=
  match gobEncodeMap m with
  | None => (fs, Some ErrGob)
  | Some b => let '(_, e, fs') := os.Write f b fs in (fs', e)
  end.

(** [createEmptyGob]: a snapshot file holding the empty map. *)
Definition createEmptyGob (dbName : string) (fs : os.files) : os.files * option error :=
  let '(f, fs1) := os.Create dbName fs in
  let '(fs2, e) := encodeMapTo f ∅ fs1 in
  (fs2, match e with Some e => Some (Wrap "createEmptyGob: encoding map" e) | None => None end).

(** [New]: load or create the snapshot, replay and recreate the
    journal, and mark the store ready. *)
Definition New (dbName walName : string) (fs : os.files) : (KV any + error) * os.files :=
  let '(loaded, fs1) :=
    if os.Stat dbName fs then
      match loadFromGob dbName fs with
      | inl m => (inl m, fs)
      | inr e => (inr (Wrap "loading from existing gob" e), fs)
      end
    else
      match createEmptyGob dbName fs with
      | (fs', Some e) => (inr (Wrap "creating empty gob" e), fs')
      | (fs', None) => (inl ∅, fs')
      end in
  match loaded with
  | inr e => (inr e, fs1)
  | inl memory =>
      match newJournal walName memory fs1 with
      | (inr e, _, fs2) => (inr (Wrap "creating journal" e), fs2)
      | (inl j, memory', fs2) => (inl (mkKV memory' dbName j false true), fs2)
      end
  end.

(** [dump]: overwrite the snapshot file with the map in memory. *)
Definition dump (kv : KV any) (fs : os.files) : os.files * option error :=
  if negb (ready kv) then (fs, Some ErrNotReady)
  else
    let '(f, fs1) := os.Create (fileName kv) fs in
    match encodeMapTo f (memory kv) fs1 with
    | (fs2, Some e) => (fs2, Some (Wrap "encoding map" e))
    | (fs2, None) => (fs2, None)
    end.

(** [Coalesce]: under the lock, dump the map and truncate the journal. *)
Definition Coalesce (kv : KV any) (fs : os.files) : outcome any (option error) :=
  if negb (ready kv) then Returns (Some ErrNotReady) kv fs
  else
    match Lock kv with
    | None => Blocks
    | Some kv1 =>
        match dump kv1 fs with
        | (fs1, Some e) => Returns (Some (Wrap "dumping memory" e)) (Unlock kv1) fs1
        | (fs1, None) =>
            match truncate (kvJournal kv1) fs1 with
            | (j, fs2, Some e) =>
                Returns (Some (Wrap "truncating journal" e)) (Unlock (withJournal kv1 j)) fs2
            | (j, fs2, None) => Returns None (Unlock (withJournal kv1 j)) fs2
            end
        end
    end.

(** [Flush]: flush the writer of the journal, then take the lock to
    note the time. *)
Definition Flush (kv : KV any) (fs : os.files) : outcome any (option error) :=
  if negb (ready kv) then Returns (Some ErrNotReady) kv fs
  else
    let '(b, fs1, e) := bufio.Flush (fh (kvJournal kv)) (bufWriter (kvJournal kv)) fs in
    let kv1 := withJournal kv (mkJournal (fh (kvJournal kv)) b (name (kvJournal kv))) in
    match e with
    | Some e => Returns (Some (Wrap "flush" e)) kv1 fs1
    | None =>
        match Lock kv1 with
        | None => Blocks
        | Some kv2 => Returns None (Unlock kv2) fs1
        end
    end.

(** [Close]: close the journal and clear the ready flag. *)
Definition Close (kv : KV any) (fs : os.files) : outcome any (option error) :=
  if negb (ready kv) then Returns (Some ErrNotReady) kv fs
  else
    match Lock kv with
    | None => Blocks
    | Some kv1 =>
        match close (kvJournal kv1) fs with
        | (j, fs1, Some e) =>
            Returns (Some (Wrap "closing journal" e)) (Unlock (withJournal kv1 j)) fs1
        | (j, fs1, None) => Returns None (Unlock (withReady (withJournal kv1 j) false)) fs1
        end
    end.

(** [Set]: store the value under the lock, release the lock, append
    a record; the error of the append is printed and dropped. *)
Definition Set_ (kv : KV any) (fs : os.files) (key : string) (value : any)
  : outcome any (option error) :=
  if negb (ready kv) then Returns (Some ErrNotReady) kv fs
  else
    match Lock kv with
    | None => Blocks
    | Some kv1 =>
        let kv2 := Unlock (withMemory kv1 (<[key := value]> (memory kv1))) in
        let '(j, fs1, _) := log (kvJournal kv2) fs OpSet key value in
        Returns None (withJournal kv2 j) fs1
    end.

(** [Unset]: when the key is absent, return at once (the lock taken
    just before is not released on this path); otherwise release the
    lock and append an Unset record. *)
Definition Unset (kv : KV any) (fs : os.files) (key : string)
  : outcome any (bool * option error) :=
  if negb (ready kv) then Returns (false, Some ErrNotReady) kv fs
  else
    match Lock kv with
    | None => Blocks
    | Some kv1 =>
        match memory kv1 !! key with
        | None => Returns (true, None) kv1 fs
        | Some _ =>
            let kv2 := Unlock kv1 in
            match log (kvJournal kv2) fs OpUnset key nil_any with
            | (j, fs1, Some e) => Returns (true, Some (Wrap "journaling" e)) (withJournal kv2 j) fs1
            | (j, fs1, None) => Returns (true, None) (withJournal kv2 j) fs1
            end
        end
    end.

(** [Get]: look the key up under the lock.  The value of an absent
    key is the zero value of [any], nil. *)
Definition Get (kv : KV any) (fs : os.files) (key : string)
  : outcome any (any * bool * option error) :=
  if negb (ready kv) then Returns (nil_any, false, Some ErrNotReady) kv fs
  else
    match Lock kv with
    | None => Blocks
    | Some kv1 =>
        match memory kv1 !! key with
        | Some val => Returns (val, true, None) (Unlock kv1) fs
        | None => Returns (nil_any, false, None) (Unlock kv1) fs
        end
    end.

(** An open, ready store between two calls: the mutex is free, the
    handle of the journal is on the file of its name, and snapshot and
    journal are two files. *)
Definition idle (kv : KV any) : Prop :=
  ready kv = true /\ mu kv = false /\
  os.path (fh (kvJournal kv)) = name (kvJournal kv) /\
  fileName kv <> name (kvJournal kv).

(** The files are such that a restart can load them: the snapshot
    decodes and, unless an error is pending in the writer, what was
    handed to the journal so far (the file, then the buffer) is a
    sequence of records that the replay accepts. *)
Definition restartable (kv : KV any) (fs : os.files) : Prop :=
  (exists snap m0, fs !! fileName kv = Some snap /\ gobDecodeMap snap = Some m0) /\
  exists disk, fs !! name (kvJournal kv) = Some disk /\
    (bufio.err (bufWriter (kvJournal kv)) = None ->
     exists recs, disk ++ bufio.buf (bufWriter (kvJournal kv)) = frames recs /\
                  Forall validRecord recs).

(** Memory and disk agree: the files are loadable and, unless an error
    is pending in the writer, replaying what was handed to the journal
    over the map of the snapshot gives the map in memory. *)
Definition durable (kv : KV any) (fs : os.files) : Prop :=
  exists snap m0 disk,
    fs !! fileName kv = Some snap /\ gobDecodeMap snap = Some m0 /\
    fs !! name (kvJournal kv) = Some disk /\
    (bufio.err (bufWriter (kvJournal kv)) = None ->
     exists recs, disk ++ bufio.buf (bufWriter (kvJournal kv)) = frames recs /\
                  Forall validRecord recs /\ replay recs m0 = memory kv).

(** An idle store on the snapshot file [db] and the journal file
    [wal] whose memory and disk agree. *)
Definition synced (db wal : string) (kv : KV any) (fs : os.files) : Prop :=
  idle kv /\ durable kv fs /\ fileName kv = db /\ name (kvJournal kv) = wal.

End Store.

(** ** A small instance of the environment *)

(** A universe of three dynamic values with a codec of its own and a
    disk that never refuses a write, on which the store is run in the
    examples below.  A channel stands for the values gob cannot
    encode. *)
Module sample.

Inductive value : Type := VNil | VByte (b : byte) | VChan.

Definition encodeValue (v : value) : option (list byte) :=
  match v with
  | VNil => Some [x00]
  | VByte b => Some [x01; b]
  | VChan => None
  end.

Definition encodeTx (tx : Tx value) : option (list byte) :=
  match encodeValue (Value tx) with
  | Some v => Some (v ++ String.list_byte_of_string (Key tx))
  | None => None
  end.

Definition decodeTx (b : list byte) : option (Tx value) :=
  match b with
  | x00 :: k => Some (mkTx (String.string_of_list_byte k) VNil)
  | x01 :: v :: k => Some (mkTx (String.string_of_list_byte k) (VByte v))
  | _ => None
  end.

(** Maps of at most one entry are enough for the examples. *)
Definition encodeMap (m : gmap string value) : option (list byte) :=
  match map_to_list m with
  | [] => Some [x00]
  | [(k, v)] =>
      match encodeTx (mkTx k v) with
      | Some b => Some (x01 :: b)
      | None => None
      end
  | _ => None
  end.

Definition decodeMap (b : list byte) : option (gmap string value) :=
  match b with
  | [x00] => Some ∅
  | x01 :: t =>
      match decodeTx t with
      | Some tx => Some {[ Key tx := Value tx ]}
      | None => None
      end
  | _ => None
  end.

#[global] Instance gob : Gob value := {|
  nil_any := VNil;
  gobEncodeTx := encodeTx;
  gobDecodeTx := decodeTx;
  gobEncodeMap := encodeMap;
  gobDecodeMap := decodeMap
|}.

#[global] Instance disk : Disk := {| write_fault := fun _ _ _ => None |}.

(** A disk that is full: every write stops at once with an error. *)
Definition fullDisk : Disk := {| write_fault := fun _ _ _ => Some O |}.

(** The payload of the transaction that sets key "a" to 7. *)
Definition payload_a7 : list byte := [x01; x07; x61].

(** The store that [New "test.db" "test.wal"] makes on an empty disk,
    and the disk it leaves. *)
Definition kv0 : KV value :=
  mkKV ∅ "test.db" (mkJournal (os.mkFile "test.wal" false) bufio.NewWriter "test.wal")
       false true.

Definition fs0 : os.files := <["test.wal" := []]> (<["test.db" := [x00]]> ∅).

(** The store and the disk that a call leaves. *)
Definition after {R : Type} (o : outcome value R) : KV value * os.files :=
  match o with
  | Returns _ kv fs => (kv, fs)
  | Blocks => (kv0, fs0)
  end.

(** The store after [Set("foo", 1)]. *)
Definition kv1 : KV value := (after (Set_ kv0 fs0 "foo" (VByte x01))).1.
Definition fs1 : os.files := (after (Set_ kv0 fs0 "foo" (VByte x01))).2.


(** The store after the [Flush] that follows, and after a [Coalesce]. *)
Definition kv2 : KV value := (after (Flush kv1 fs1)).1.
Definition fs2 : os.files := (after (Flush kv1 fs1)).2.

Definition kvc : KV value := (after (Coalesce kv1 fs1)).1.
Definition fsc : os.files := (after (Coalesce kv1 fs1)).2.

(** The journal of [kv0] after the append of "a" -> 7 and a flush. *)
Definition j0 : journal := kvJournal kv0.
Definition ja : journal := (logAll j0 fs0 [(OpSet, "a", VByte x07)]).1.1.
Definition fsa : os.files := (logAll j0 fs0 [(OpSet, "a", VByte x07)]).1.2.
Definition jb : journal := (flush ja fsa).1.1.
Definition fsb : os.files := (flush ja fsa).1.2.


(** A disk whose snapshot is not a gob stream, beside a journal of one
    record. *)
Definition fsBadSnapshot : os.files :=
  <["test.wal" := frame (OpSet, payload_a7)]> (<["test.db" := [x05]]> ∅).

(** On the full disk: the store and the files after [Set("foo", 1)],
    after the [Flush] that follows, and after [Set("bar", 2)]. *)
Definition full1 : KV value * os.files :=
  after (@Set_ _ gob fullDisk kv0 fs0 "foo" (VByte x01)).
Definition full2 : KV value * os.files := after (@Flush _ fullDisk full1.1 full1.2).
Definition full3 : KV value * os.files :=
  after (@Set_ _ gob fullDisk full2.1 full2.2 "bar" (VByte x02)).

(** A disk with the snapshot of the empty map and a journal of one
    record. *)
Definition fsJournalled : os.files :=
  <["test.wal" := frame (OpSet, payload_a7)]> (<["test.db" := [x00]]> ∅).


(** From [kv0]: [Set("c", ch)] with a channel, which gob refuses, then
    the [Coalesce] that fails on it, then [Set("foo", 1)] and
    [Flush]. *)
Definition bad1 : KV value * os.files := after (Set_ kv0 fs0 "c" VChan).
Definition bad2 : KV value * os.files := after (Coalesce bad1.1 bad1.2).
Definition bad3 : KV value * os.files := after (Set_ bad2.1 bad2.2 "foo" (VByte x01)).
Definition bad4 : KV value * os.files := after (Flush bad3.1 bad3.2).

End sample.

(** * Properties *)

(** ** Bytes *)

Lemma byte_to_Z_range (b : byte) : 0 <= byte_to_Z b < 256.
Proof.
  unfold byte_to_Z. pose proof (Byte.to_N_bounded b). lia.
Qed.

Lemma byte_of_to_Z (b : byte) : byte_of_Z (byte_to_Z b) = b.
Proof.
  unfold byte_of_Z. pose proof (byte_to_Z_range b) as Hr.
  rewrite Z.mod_small by lia. unfold byte_to_Z.
  rewrite N2Z.id, Byte.of_to_N. reflexivity.
Qed.

Lemma byte_to_of_Z (z : Z) : byte_to_Z (byte_of_Z z) = z mod 256.
Proof.
  unfold byte_of_Z, byte_to_Z.
  assert (Hr : 0 <= z mod 256 < 256) by (apply Z.mod_pos_bound; lia).
  destruct (Byte.of_N (Z.to_N (z mod 256))) as [b|] eqn:E.
  - apply Byte.to_of_N in E. rewrite E. lia.
  - apply Byte.of_N_None_iff in E. lia.
Qed.

Lemma byte_to_Z_inj (a b : byte) : byte_to_Z a = byte_to_Z b -> a = b.
Proof.
  intros H. rewrite <- (byte_of_to_Z a), <- (byte_of_to_Z b). now rewrite H.
Qed.

(** ** Big-endian integers *)

Lemma testbit_above (v n i : Z) : 0 <= v < 2 ^ n -> 0 <= n <= i -> Z.testbit v i = false.
Proof.
  intros Hv Hi. rewrite <- (Z.mod_small v (2 ^ n)) by lia.
  apply Z.mod_pow2_bits_high. lia.
Qed.

Lemma byte_to_Z_of_shiftr (v k : Z) :
  byte_to_Z (byte_of_Z (Z.shiftr v k)) = Z.shiftr v k mod 2 ^ 8.
Proof. apply byte_to_of_Z. Qed.

Lemma Uint32_PutUint32 (v : Z) :
  0 <= v < 2 ^ 32 ->
  match binary.BigEndian_PutUint32 v with
  | [b0; b1; b2; b3] => binary.BigEndian_Uint32 b0 b1 b2 b3 = v
  | _ => False
  end.
Proof.
  intros Hv. unfold binary.BigEndian_PutUint32, binary.BigEndian_Uint32.
  rewrite !byte_to_Z_of_shiftr.
  replace (byte_to_Z (byte_of_Z v)) with (v mod 2 ^ 8) by (symmetry; apply byte_to_of_Z).
  apply Z.bits_inj'. intros i Hi.
  rewrite !Z.lor_spec, !Z.shiftl_spec, !Z.testbit_mod_pow2 by lia.
  destruct (Z.ltb_spec i 8); destruct (Z.ltb_spec (i - 8) 8);
    destruct (Z.ltb_spec (i - 16) 8); destruct (Z.ltb_spec (i - 24) 8);
    try lia; cbn [andb orb];
    rewrite ?Z.shiftr_spec by lia;
    rewrite ?(Z.testbit_neg_r _ (i - 8)), ?(Z.testbit_neg_r _ (i - 16)),
      ?(Z.testbit_neg_r _ (i - 24)) by lia;
    rewrite ?Bool.orb_false_r, ?Bool.orb_false_l;
    try (f_equal; lia).
  symmetry. apply (testbit_above v 32); lia.
Qed.

Lemma Uint32_range (b0 b1 b2 b3 : byte) : 0 <= binary.BigEndian_Uint32 b0 b1 b2 b3 < 2 ^ 32.
Proof.
  unfold binary.BigEndian_Uint32.
  pose proof (byte_to_Z_range b0). pose proof (byte_to_Z_range b1).
  pose proof (byte_to_Z_range b2). pose proof (byte_to_Z_range b3).
  assert (Hnn : 0 <= Z.lor (Z.lor (Z.lor (byte_to_Z b3) (Z.shiftl (byte_to_Z b2) 8))
                       (Z.shiftl (byte_to_Z b1) 16)) (Z.shiftl (byte_to_Z b0) 24)).
  { rewrite !Z.lor_nonneg, !Z.shiftl_nonneg. lia. }
  split; [exact Hnn|].
  destruct (Z.eq_dec (Z.lor (Z.lor (Z.lor (byte_to_Z b3) (Z.shiftl (byte_to_Z b2) 8))
                       (Z.shiftl (byte_to_Z b1) 16)) (Z.shiftl (byte_to_Z b0) 24)) 0) as [->|Hne];
    [lia|].
  apply Z.log2_lt_pow2; [lia|].
  rewrite !Z.log2_lor by (rewrite ?Z.lor_nonneg, ?Z.shiftl_nonneg; lia).
  assert (Hl : forall b k, 0 <= k -> 0 <= b < 256 -> Z.log2 (Z.shiftl b k) < 8 + k).
  { intros b k Hk Hb. destruct (Z.eq_dec b 0) as [->|Hb0].
    - rewrite Z.shiftl_0_l. simpl. lia.
    - rewrite Z.log2_shiftl by lia.
      assert (Z.log2 b < 8) by (apply Z.log2_lt_pow2; lia). lia. }
  pose proof (Hl (byte_to_Z b0) 24). pose proof (Hl (byte_to_Z b1) 16).
  pose proof (Hl (byte_to_Z b2) 8). pose proof (Hl (byte_to_Z b3) 0) as Hb3.
  rewrite Z.shiftl_0_r in Hb3. lia.
Qed.

(** ** The frame codec *)

Lemma jEncode_length (op len crc : Z) : length (jEncode op len crc) = 9%nat.
Proof. reflexivity. Qed.

Lemma jDecode_jEncode (op len crc : Z) :
  0 <= op < 256 -> 0 <= len < 2 ^ 32 -> 0 <= crc < 2 ^ 32 ->
  jDecode (jEncode op len crc) = inl (op, len, crc).
Proof.
  intros Hop Hlen Hcrc.
  pose proof (Uint32_PutUint32 len Hlen) as Hl.
  pose proof (Uint32_PutUint32 crc Hcrc) as Hc.
  unfold jEncode, binary.BigEndian_PutUint32 in *. cbn [app jDecode] in *.
  rewrite Hl, Hc, byte_to_of_Z, Z.mod_small by lia. reflexivity.
Qed.

(** C7: decoding the nine bytes that [jEncode] makes of a tag, a
    32-bit length and a 32-bit checksum returns the three values and no
    error. *)
Theorem C7_decode_encode_roundtrip (op : Op) (len crc : Z) :
  0 <= op < 256 -> 0 <= len < 2 ^ 32 -> 0 <= crc < 2 ^ 32 ->
  jDecode (jEncode op len crc) = inl (op, len, crc).
Proof. apply jDecode_jEncode. Qed.

Lemma C7_witness :
  jDecode (jEncode OpSet 42 2424) = inl (OpSet, 42, 2424).
Proof.
  apply (C7_decode_encode_roundtrip OpSet 42 2424); unfold OpSet; lia.
Defined.

Lemma PutUint32_digits (v : Z) :
  0 <= v < 2 ^ 32 ->
  exists b0 b1 b2 b3,
    binary.BigEndian_PutUint32 v = [b0; b1; b2; b3] /\
    v = byte_to_Z b0 * 2 ^ 24 + byte_to_Z b1 * 2 ^ 16 + byte_to_Z b2 * 2 ^ 8 + byte_to_Z b3.
Proof.
  intros Hv. do 4 eexists. split; [reflexivity|].
  rewrite !byte_to_of_Z, !Z.shiftr_div_pow2 by lia.
  change (2 ^ 24) with 16777216. change (2 ^ 16) with 65536. change (2 ^ 8) with 256.
  change (2 ^ 32) with 4294967296 in Hv.
  Z.div_mod_to_equations. lia.
Qed.

Lemma jDecode_wrong_length (buf : list byte) :
  length buf <> 9%nat -> jDecode buf = inr (Errorf "expected 9 bytes").
Proof.
  intros Hlen.
  do 10 (destruct buf as [|? buf]; try reflexivity).
  exfalso. apply Hlen. reflexivity.
Qed.

Lemma jDecode_nine (buf : list byte) :
  length buf = 9%nat ->
  exists op len crc, jDecode buf = inl (op, len, crc) /\
    0 <= op < 256 /\ 0 <= len < 2 ^ 32 /\ 0 <= crc < 2 ^ 32.
Proof.
  intros Hlen.
  do 10 (destruct buf as [|? buf]; try discriminate Hlen).
  do 3 eexists. split; [reflexivity|].
  split; [apply byte_to_Z_range|]. split; apply Uint32_range.
Qed.

(** C8: the header is always nine bytes: byte 0 is the tag (1 for Set,
    2 for Unset), bytes 1 to 4 are the length and bytes 5 to 8 the
    checksum, both as big-endian unsigned 32-bit integers; decoding
    fails on every input that is not nine bytes long and succeeds on
    every input that is. *)
Theorem C8_header_layout :
  (forall op len crc, length (jEncode op len crc) = 9%nat) /\
  (forall op len crc,
      0 <= op < 256 -> 0 <= len < 2 ^ 32 -> 0 <= crc < 2 ^ 32 ->
      exists t l0 l1 l2 l3 c0 c1 c2 c3,
        jEncode op len crc = [t; l0; l1; l2; l3; c0; c1; c2; c3] /\
        byte_to_Z t = op /\
        len = byte_to_Z l0 * 2 ^ 24 + byte_to_Z l1 * 2 ^ 16 + byte_to_Z l2 * 2 ^ 8 + byte_to_Z l3 /\
        crc = byte_to_Z c0 * 2 ^ 24 + byte_to_Z c1 * 2 ^ 16 + byte_to_Z c2 * 2 ^ 8 + byte_to_Z c3) /\
  (forall len crc, head (jEncode OpSet len crc) = Some x01 /\
                   head (jEncode OpUnset len crc) = Some x02) /\
  (forall buf, length buf <> 9%nat -> exists e, jDecode buf = inr e) /\
  (forall buf, length buf = 9%nat -> exists op len crc, jDecode buf = inl (op, len, crc)).
Proof.
  repeat split.
  - intros op len crc Hop Hlen Hcrc.
    destruct (PutUint32_digits len Hlen) as (l0 & l1 & l2 & l3 & El & Hl).
    destruct (PutUint32_digits crc Hcrc) as (c0 & c1 & c2 & c3 & Ec & Hc).
    exists (byte_of_Z op), l0, l1, l2, l3, c0, c1, c2, c3.
    unfold jEncode. rewrite El, Ec. repeat split; try assumption.
    rewrite byte_to_of_Z. apply Z.mod_small. lia.
  - intros buf Hlen. eexists. apply jDecode_wrong_length, Hlen.
  - intros buf Hlen. destruct (jDecode_nine buf Hlen) as (op & len & crc & E & _).
    eauto.
Qed.

Lemma C8_witness :
  length (jEncode OpUnset 258 2424) = 9%nat /\
  jEncode OpUnset 258 2424 = [x02; x00; x00; x01; x02; x00; x00; x09; x78] /\
  (exists e, jDecode [x01; x02] = inr e) /\
  (exists op len crc, jDecode [x02; x00; x00; x01; x02; x00; x00; x09; x78] = inl (op, len, crc)).
Proof.
  destruct C8_header_layout as (Hlen & _ & _ & Hbad & Hgood).
  split; [apply Hlen|]. split; [reflexivity|].
  split; [apply Hbad; simpl; lia | apply Hgood; reflexivity].
Defined.

(** ** CRC-32: a change of one byte changes the checksum *)

Lemma lxor_range (n a b : Z) :
  0 <= n -> 0 <= a < 2 ^ n -> 0 <= b < 2 ^ n -> 0 <= Z.lxor a b < 2 ^ n.
Proof.
  intros Hn Ha Hb.
  assert (E : Z.lxor a b mod 2 ^ n = Z.lxor a b).
  { apply Z.bits_inj'. intros i Hi.
    rewrite Z.testbit_mod_pow2 by lia.
    destruct (Z.ltb_spec i n); [reflexivity|].
    rewrite Z.lxor_spec, (testbit_above a n i), (testbit_above b n i) by lia.
    reflexivity. }
  rewrite <- E. apply Z.mod_pos_bound. lia.
Qed.

Lemma shiftr_range (n k a : Z) :
  0 <= k <= n -> 0 <= a < 2 ^ n -> 0 <= Z.shiftr a k < 2 ^ (n - k).
Proof.
  intros Hk Ha. rewrite Z.shiftr_div_pow2 by lia.
  split; [apply Z.div_pos; lia|].
  apply Z.div_lt_upper_bound; [lia|].
  rewrite <- Z.pow_add_r by lia. replace (k + (n - k)) with n by lia. lia.
Qed.

Module crc32_facts.
Import crc32.

Lemma shift1_range (c : Z) : 0 <= c < 2 ^ 32 -> 0 <= shift1 c < 2 ^ 32.
Proof.
  intros Hc. unfold shift1.
  pose proof (shiftr_range 32 1 c ltac:(lia) Hc) as Hs.
  change (2 ^ (32 - 1)) with 2147483648 in Hs.
  destruct (Z.testbit c 0).
  - apply lxor_range; [lia| |unfold IEEE]; change (2 ^ 32) with 4294967296; lia.
  - change (2 ^ 32) with 4294967296. lia.
Qed.

Lemma tableEntry_range (i : Z) : 0 <= i < 2 ^ 32 -> 0 <= tableEntry i < 2 ^ 32.
Proof.
  intros Hi. unfold tableEntry. cbn [Nat.iter nat_rect].
  do 8 apply shift1_range. exact Hi.
Qed.

Lemma index_range (c : Z) (v : byte) :
  0 <= Z.lxor (Z.land c 255) (byte_to_Z v) < 2 ^ 8.
Proof.
  apply lxor_range; [lia| |apply byte_to_Z_range].
  change 255 with (Z.ones 8). rewrite Z.land_ones by lia.
  apply Z.mod_pos_bound. lia.
Qed.

Lemma updateByte_range (c : Z) (v : byte) :
  0 <= c < 2 ^ 32 -> 0 <= updateByte c v < 2 ^ 32.
Proof.
  intros Hc. unfold updateByte. apply lxor_range; [lia| |].
  - apply tableEntry_range. pose proof (index_range c v).
    change (2 ^ 8) with 256 in *. change (2 ^ 32) with 4294967296. lia.
  - pose proof (shiftr_range 32 8 c ltac:(lia) Hc) as Hs.
    change (2 ^ (32 - 8)) with 16777216 in Hs. change (2 ^ 32) with 4294967296. lia.
Qed.

Lemma fold_updateByte_range (p : list byte) (c : Z) :
  0 <= c < 2 ^ 32 -> 0 <= fold_left updateByte p c < 2 ^ 32.
Proof.
  revert c. induction p as [|v p IH]; intros c Hc; [exact Hc|].
  cbn [fold_left]. apply IH, updateByte_range, Hc.
Qed.

Lemma In_indices (i : Z) : 0 <= i < 256 -> In i indices.
Proof.
  intros Hi. unfold indices. rewrite <- (Z2Nat.id i) by lia.
  apply in_map, in_seq. lia.
Qed.

Lemma distinct_on_list (f : Z -> Z) (l : list Z) :
  forallb (fun i => forallb (fun j => implb (f i =? f j) (i =? j)) l) l = true ->
  forall i j, In i l -> In j l -> f i = f j -> i = j.
Proof.
  intros Hall i j Hi Hj E.
  rewrite forallb_forall in Hall. specialize (Hall i Hi).
  rewrite forallb_forall in Hall. specialize (Hall j Hj).
  rewrite E, Z.eqb_refl in Hall. apply Z.eqb_eq. exact Hall.
Qed.

Lemma topByte_distinct_true : topByte_distinct = true.
Proof. vm_compute. reflexivity. Qed.

Lemma topByte_distinct_unfolded :
  forallb (fun i => forallb (fun j => implb (topByte i =? topByte j) (i =? j)) indices)
          indices = true.
Proof. vm_compute. reflexivity. Qed.

Lemma topByte_inj (i j : Z) :
  0 <= i < 256 -> 0 <= j < 256 -> topByte i = topByte j -> i = j.
Proof.
  intros Hi Hj E.
  exact (distinct_on_list topByte indices topByte_distinct_unfolded i j
           (In_indices i Hi) (In_indices j Hj) E).
Qed.

Lemma shiftr_lxor_high (t h : Z) :
  0 <= h < 2 ^ 24 -> Z.shiftr (Z.lxor t h) 24 = Z.shiftr t 24.
Proof.
  intros Hh. rewrite Z.shiftr_lxor.
  replace (Z.shiftr h 24) with 0; [apply Z.lxor_0_r|].
  symmetry. rewrite Z.shiftr_div_pow2 by lia. apply Z.div_small. lia.
Qed.

Lemma lxor_cancel_l (a b c : Z) : Z.lxor a b = Z.lxor a c -> b = c.
Proof.
  intros E. apply (f_equal (Z.lxor a)) in E.
  rewrite <- !Z.lxor_assoc, Z.lxor_nilpotent, !Z.lxor_0_l in E. exact E.
Qed.

Lemma lxor_cancel_r (a b c : Z) : Z.lxor b a = Z.lxor c a -> b = c.
Proof. rewrite !(Z.lxor_comm _ a). apply lxor_cancel_l. Qed.

(** From the new state one reads back the table index and the upper
    24 bits of the old state. *)
Lemma updateByte_inv (c c' : Z) (v v' : byte) :
  0 <= c < 2 ^ 32 -> 0 <= c' < 2 ^ 32 ->
  updateByte c v = updateByte c' v' ->
  Z.lxor (Z.land c 255) (byte_to_Z v) = Z.lxor (Z.land c' 255) (byte_to_Z v') /\
  Z.shiftr c 8 = Z.shiftr c' 8.
Proof.
  intros Hc Hc' E. unfold updateByte in E.
  pose proof (shiftr_range 32 8 c ltac:(lia) Hc) as Hs.
  pose proof (shiftr_range 32 8 c' ltac:(lia) Hc') as Hs'.
  change (32 - 8) with 24 in *.
  assert (Ei : Z.lxor (Z.land c 255) (byte_to_Z v) = Z.lxor (Z.land c' 255) (byte_to_Z v')).
  { apply topByte_inj; [apply index_range..|].
    unfold topByte.
    rewrite <- (shiftr_lxor_high _ (Z.shiftr c 8)) by exact Hs.
    rewrite <- (shiftr_lxor_high (tableEntry _) (Z.shiftr c' 8)) by exact Hs'.
    now rewrite E. }
  split; [exact Ei|].
  rewrite Ei in E. apply lxor_cancel_l in E. exact E.
Qed.

Lemma updateByte_inj_byte (c : Z) (v v' : byte) :
  0 <= c < 2 ^ 32 -> updateByte c v = updateByte c v' -> v = v'.
Proof.
  intros Hc E. destruct (updateByte_inv c c v v' Hc Hc E) as [Ei _].
  apply lxor_cancel_l in Ei. apply byte_to_Z_inj, Ei.
Qed.

Lemma updateByte_inj_state (c c' : Z) (v : byte) :
  0 <= c < 2 ^ 32 -> 0 <= c' < 2 ^ 32 -> updateByte c v = updateByte c' v -> c = c'.
Proof.
  intros Hc Hc' E. destruct (updateByte_inv c c' v v Hc Hc' E) as [Ei Es].
  apply lxor_cancel_r in Ei.
  change 255 with (Z.ones 8) in Ei. rewrite !Z.land_ones in Ei by lia.
  rewrite !Z.shiftr_div_pow2 in Es by lia.
  rewrite (Z.div_mod c (2 ^ 8)), (Z.div_mod c' (2 ^ 8)) by lia.
  now rewrite Ei, Es.
Qed.

Lemma fold_updateByte_inj (p : list byte) (c c' : Z) :
  0 <= c < 2 ^ 32 -> 0 <= c' < 2 ^ 32 ->
  fold_left updateByte p c = fold_left updateByte p c' -> c = c'.
Proof.
  revert c c'. induction p as [|v p IH]; intros c c' Hc Hc' E; [exact E|].
  cbn [fold_left] in E.
  apply IH in E; [|apply updateByte_range; assumption..].
  apply (updateByte_inj_state c c' v); assumption.
Qed.

Lemma ChecksumIEEE_range (p : list byte) : 0 <= ChecksumIEEE p < 2 ^ 32.
Proof.
  unfold ChecksumIEEE, not32. apply lxor_range; [lia| |].
  - apply fold_updateByte_range. vm_compute. split; [discriminate|reflexivity].
  - vm_compute. split; [discriminate|reflexivity].
Qed.

(** Two payloads that differ in exactly one byte have different
    checksums. *)
Lemma ChecksumIEEE_one_byte (p1 p2 : list byte) (b c : byte) :
  b <> c -> ChecksumIEEE (p1 ++ b :: p2) <> ChecksumIEEE (p1 ++ c :: p2).
Proof.
  intros Hbc E. unfold ChecksumIEEE, not32 in E.
  apply lxor_cancel_r in E.
  rewrite !fold_left_app in E. cbn [fold_left] in E.
  assert (H0 : 0 <= fold_left updateByte p1 (Z.lxor 0 4294967295) < 2 ^ 32).
  { apply fold_updateByte_range. vm_compute. split; [discriminate|reflexivity]. }
  apply fold_updateByte_inj in E; [|apply updateByte_range; exact H0..].
  apply updateByte_inj_byte in E; [|exact H0].
  contradiction.
Qed.

End crc32_facts.

Example ChecksumIEEE_check :
  crc32.ChecksumIEEE [x31; x32; x33; x34; x35; x36; x37; x38; x39] = 0xcbf43926.
Proof. vm_compute. reflexivity. Qed.

(** ** Replay *)

Lemma Read_app (a rest : list byte) : os.Read (length a) (a ++ rest) = (a, rest, None).
Proof.
  destruct a as [|x a]; [reflexivity|].
  cbn [length app os.Read].
  change (x :: a ++ rest) with ((x :: a) ++ rest).
  rewrite take_app_length', drop_app_length' by reflexivity. reflexivity.
Qed.

Lemma Read_length (n : nat) (rd got rest : list byte) (e : option error) :
  os.Read n rd = (got, rest, e) -> (length rest + length got)%nat = length rd.
Proof.
  unfold os.Read. destruct n; [intros [= <- <- _]; simpl; lia|].
  destruct rd as [|x rd]; [intros [= <- <- _]; reflexivity|].
  intros [= <- <- _]. cbn [length].
  rewrite <- (take_drop n rd) at 3. rewrite length_app. lia.
Qed.

Section ReplayFacts.
Context {any : Type} `{Gob any}.

Lemma playRecord_shrinks (rd rd' : list byte) (m m' : gmap string any) :
  playRecord rd m = Again rd' m' -> (length rd' + 9 <= length rd)%nat.
Proof.
  unfold playRecord.
  destruct (os.Read 9 rd) as [[header rd1] e] eqn:E1.
  destruct e as [[]|]; try discriminate.
  destruct (Nat.eqb_spec (length header) 9) as [Hh|]; [|discriminate]. cbn [negb].
  destruct (jDecode header) as [[[op buflen] checksum]|]; [|discriminate].
  destruct (os.Read (Z.to_nat buflen) rd1) as [[b rd2] e] eqn:E2.
  destruct e; [discriminate|].
  destruct (negb _); [discriminate|]. destruct (negb _); [discriminate|].
  destruct (gobDecodeTx b); [|discriminate].
  intros [= <- _].
  apply Read_length in E1, E2. lia.
Qed.

(** The fuel does not matter once it exceeds the bytes to read. *)
Lemma playLoop_fuel (fuel fuel' : nat) (rd : list byte) (m : gmap string any) :
  (length rd < fuel)%nat -> (length rd < fuel')%nat ->
  playLoop fuel rd m = playLoop fuel' rd m.
Proof.
  revert fuel' rd m. induction fuel as [|fuel IH]; intros fuel' rd m Hf Hf'; [lia|].
  destruct fuel' as [|fuel']; [lia|]. cbn [playLoop].
  destruct (playRecord rd m) as [|rd' m'] eqn:E; [reflexivity|].
  apply playRecord_shrinks in E. apply IH; lia.
Qed.

(** A well-formed header followed by its payload: the turn checks the
    checksum, decodes the payload and applies the transaction. *)
Lemma playRecord_header (op crc : Z) (payload rest : list byte) (m : gmap string any) :
  0 <= op < 256 -> Z.of_nat (length payload) < 2 ^ 32 -> 0 <= crc < 2 ^ 32 ->
  playRecord (jEncode op (Z.of_nat (length payload)) crc ++ payload ++ rest) m =
    if negb (crc32.ChecksumIEEE payload =? crc) then Stop m (Some ErrJournalCorrupt)
    else match gobDecodeTx payload with
         | None => Stop m (Some (Wrap "decode tx" ErrGob))
         | Some tx => Again rest (applyTx op tx m)
         end.
Proof.
  intros Hop Hlen Hcrc. unfold playRecord.
  change 9%nat with (length (jEncode op (Z.of_nat (length payload)) crc)) at 1.
  rewrite Read_app. rewrite jEncode_length. cbn [Nat.eqb negb].
  rewrite jDecode_jEncode by lia.
  rewrite Nat2Z.id, Read_app, Z.eqb_refl. cbn [negb]. reflexivity.
Qed.

Lemma playRecord_frame (r : Op * list byte) (rest : list byte) (m : gmap string any) :
  validRecord r -> playRecord (frame r ++ rest) m = Again rest (applyRecord m r).
Proof.
  intros (Hop & Hlen & [tx Htx]). unfold frame, applyRecord. rewrite <- app_assoc.
  rewrite playRecord_header by (try apply crc32_facts.ChecksumIEEE_range; lia).
  rewrite Z.eqb_refl, Htx. reflexivity.
Qed.

Lemma frames_cons (r : Op * list byte) (recs : list (Op * list byte)) :
  frames (r :: recs) = frame r ++ frames recs.
Proof. reflexivity. Qed.

Lemma frames_app (recs recs' : list (Op * list byte)) :
  frames (recs ++ recs') = frames recs ++ frames recs'.
Proof. unfold frames. now rewrite map_app, concat_app. Qed.

Lemma replay_app (recs recs' : list (Op * list byte)) (m : gmap string any) :
  replay (recs ++ recs') m = replay recs' (replay recs m).
Proof. apply fold_left_app. Qed.

(** Replaying accepted records and then a tail is replaying the tail
    from the map the records leave. *)
Lemma playLoop_frames (recs : list (Op * list byte)) (tail : list byte)
    (m : gmap string any) (fuel fuel' : nat) :
  Forall validRecord recs ->
  (length (frames recs ++ tail) < fuel)%nat -> (length tail < fuel')%nat ->
  playLoop fuel (frames recs ++ tail) m = playLoop fuel' tail (replay recs m).
Proof.
  intros Hv. revert m fuel. induction Hv as [|r recs Hr Hv IH]; intros m fuel Hf Hf'.
  - apply playLoop_fuel; assumption.
  - destruct fuel as [|fuel]; [lia|].
    rewrite frames_cons, <- app_assoc in *. cbn [playLoop].
    rewrite playRecord_frame by exact Hr.
    rewrite length_app in Hf. apply IH; [|assumption].
    unfold frame in Hf. rewrite length_app, jEncode_length in Hf. lia.
Qed.

Lemma play_data (filename : string) (data : list byte) (m : gmap string any)
    (fs : os.files) :
  fs !! filename = Some data -> play filename m fs = playLoop (S (length data)) data m.
Proof. intros E. unfold play. now rewrite E. Qed.

Lemma play_frames (filename : string) (recs : list (Op * list byte))
    (m : gmap string any) (fs : os.files) :
  Forall validRecord recs -> fs !! filename = Some (frames recs) ->
  play filename m fs = (replay recs m, None).
Proof.
  intros Hv E. rewrite (play_data _ _ _ _ E).
  rewrite <- (app_nil_r (frames recs)) at 2.
  rewrite (playLoop_frames recs [] m _ 1%nat Hv); [reflexivity| |simpl; lia].
  rewrite app_nil_r. lia.
Qed.

End ReplayFacts.

Section ReplayErrors.
Context {any : Type} `{Gob any}.

Lemma play_after_frames (filename : string) (recs : list (Op * list byte))
    (tail : list byte) (m : gmap string any) (fs : os.files) :
  Forall validRecord recs -> fs !! filename = Some (frames recs ++ tail) ->
  play filename m fs = playLoop (S (length tail)) tail (replay recs m).
Proof.
  intros Hv E. rewrite (play_data _ _ _ _ E).
  apply playLoop_frames; [exact Hv|lia..].
Qed.

Lemma play_corrupt (filename : string) (recs : list (Op * list byte))
    (op crc : Z) (payload rest : list byte) (m : gmap string any) (fs : os.files) :
  Forall validRecord recs ->
  0 <= op < 256 -> Z.of_nat (length payload) < 2 ^ 32 -> 0 <= crc < 2 ^ 32 ->
  crc <> crc32.ChecksumIEEE payload ->
  fs !! filename =
    Some (frames recs ++ jEncode op (Z.of_nat (length payload)) crc ++ payload ++ rest) ->
  play filename m fs = (replay recs m, Some ErrJournalCorrupt).
Proof.
  intros Hv Hop Hlen Hcrc Hne E.
  rewrite (play_after_frames _ _ _ _ _ Hv E). cbn [playLoop].
  rewrite playRecord_header by assumption.
  destruct (Z.eqb_spec (crc32.ChecksumIEEE payload) crc); [congruence|reflexivity].
Qed.

(** C3: when the replay meets a record whose payload does not have
    the checksum of its header (the CRC-32 of the payload bytes
    alone), it returns [ErrJournalCorrupt], and the map holds the
    effects of the records before it, in the order of the journal. *)
Theorem C3_checksum_mismatch_aborts_replay (filename : string)
    (recs : list (Op * list byte)) (op crc : Z) (payload rest : list byte)
    (m : gmap string any) (fs : os.files) :
  Forall validRecord recs ->
  0 <= op < 256 -> Z.of_nat (length payload) < 2 ^ 32 -> 0 <= crc < 2 ^ 32 ->
  crc <> crc32.ChecksumIEEE payload ->
  fs !! filename =
    Some (frames recs ++ jEncode op (Z.of_nat (length payload)) crc ++ payload ++ rest) ->
  play filename m fs = (replay recs m, Some ErrJournalCorrupt).
Proof. apply play_corrupt. Qed.

(** C10: a record whose tag is neither 1 nor 2 is not rejected.  With
    a good checksum and a payload that decodes, the map stays as it
    is and the replay goes on with the next record, so the journal
    replays like the journal without that record; the checksum is
    still verified and the payload still decoded. *)
Theorem C10_unknown_tag_is_skipped (filename : string)
    (recs : list (Op * list byte)) (op : Z) (payload rest : list byte)
    (m : gmap string any) :
  Forall validRecord recs ->
  0 <= op < 256 -> op <> OpSet -> op <> OpUnset ->
  Z.of_nat (length payload) < 2 ^ 32 ->
  (forall tx fs fs',
      gobDecodeTx payload = Some tx ->
      fs !! filename = Some (frames recs ++ frame (op, payload) ++ rest) ->
      fs' !! filename = Some (frames recs ++ rest) ->
      applyTx op tx (replay recs m) = replay recs m /\
      play filename m fs = play filename m fs') /\
  (forall crc fs,
      0 <= crc < 2 ^ 32 -> crc <> crc32.ChecksumIEEE payload ->
      fs !! filename =
        Some (frames recs ++ jEncode op (Z.of_nat (length payload)) crc ++ payload ++ rest) ->
      play filename m fs = (replay recs m, Some ErrJournalCorrupt)) /\
  (forall fs,
      gobDecodeTx payload = None ->
      fs !! filename = Some (frames recs ++ frame (op, payload) ++ rest) ->
      play filename m fs = (replay recs m, Some (Wrap "decode tx" ErrGob))).
Proof.
  intros Hv Hop Hset Hunset Hlen.
  assert (Hskip : forall (tx : Tx any) (m' : gmap string any), applyTx op tx m' = m').
  { intros tx m'. unfold applyTx.
    destruct (Z.eqb_spec op OpSet); [contradiction|].
    destruct (Z.eqb_spec op OpUnset); [contradiction|]. reflexivity. }
  split; [|split].
  - intros tx fs fs' Htx E E'. split; [apply Hskip|].
    rewrite (play_after_frames _ _ _ _ _ Hv E). cbn [playLoop].
    unfold frame at 1. cbn [fst snd]. rewrite <- app_assoc.
    rewrite playRecord_header by (try apply crc32_facts.ChecksumIEEE_range; lia).
    rewrite Z.eqb_refl, Htx, Hskip. cbn [negb].
    rewrite (play_after_frames _ _ _ _ _ Hv E').
    apply playLoop_fuel; [|lia].
    rewrite !length_app. unfold frame. rewrite length_app, jEncode_length. lia.
  - intros crc fs Hcrc Hne E. apply (play_corrupt _ _ op crc payload rest); assumption.
  - intros fs Htx E.
    rewrite (play_after_frames _ _ _ _ _ Hv E). cbn [playLoop].
    unfold frame. cbn [fst snd]. rewrite <- app_assoc.
    rewrite playRecord_header by (try apply crc32_facts.ChecksumIEEE_range; lia).
    rewrite Z.eqb_refl, Htx. reflexivity.
Qed.

End ReplayErrors.

Lemma sample_valid_a7 : validRecord (any := sample.value) (OpSet, sample.payload_a7).
Proof.
  split; [unfold OpSet; simpl; lia|].
  split; [vm_compute; reflexivity|]. eexists. reflexivity.
Defined.

Lemma C3_witness :
  play "test.wal" (∅ : gmap string sample.value)
    {[ "test.wal" := frames [(OpSet, sample.payload_a7)]
                       ++ jEncode OpUnset (Z.of_nat (length [x00])) 0 ++ [x00] ++ [] ]}
  = ({[ "a" := sample.VByte x07 ]}, Some ErrJournalCorrupt).
Proof.
  transitivity (replay (any := sample.value) [(OpSet, sample.payload_a7)] ∅,
                Some ErrJournalCorrupt); [|vm_compute; reflexivity].
  apply (C3_checksum_mismatch_aborts_replay "test.wal" [(OpSet, sample.payload_a7)]
           OpUnset 0 [x00] [] ∅).
  - constructor; [exact sample_valid_a7|constructor].
  - unfold OpUnset. lia.
  - vm_compute. reflexivity.
  - lia.
  - vm_compute. discriminate.
  - vm_compute. reflexivity.
Defined.

Lemma C10_witness :
  play "test.wal" (∅ : gmap string sample.value)
    {[ "test.wal" := frames [(OpSet, sample.payload_a7)] ++ frame (0, [x00; x62]) ++ [] ]}
  = play "test.wal" (∅ : gmap string sample.value)
    {[ "test.wal" := frames [(OpSet, sample.payload_a7)] ++ [] ]}.
Proof.
  destruct (C10_unknown_tag_is_skipped "test.wal" [(OpSet, sample.payload_a7)]
              0 [x00; x62] [] (∅ : gmap string sample.value)) as [Hskip _].
  - constructor; [exact sample_valid_a7|constructor].
  - lia.
  - unfold OpSet. lia.
  - unfold OpUnset. lia.
  - vm_compute. reflexivity.
  - eapply Hskip; [reflexivity| |]; vm_compute; reflexivity.
Defined.

(** ** The buffered writer *)

Section WriterFacts.
Context `{Disk}.

Lemma os_Write_ok (f : os.File) (p : list byte) (fs fs' : os.files) (n : nat) :
  os.Write f p fs = (n, None, fs') ->
  n = length p /\ fs' = <[os.path f := default [] (fs !! os.path f) ++ p]> fs.
Proof.
  unfold os.Write. destruct (os.closed f); [discriminate|].
  destruct (write_fault _ _ _); [discriminate|].
  intros [= <- <-]. split; reflexivity.
Qed.

Lemma os_Write_other (f : os.File) (p : list byte) (fs fs' : os.files) (n : nat)
    (e : option error) (other : string) :
  os.Write f p fs = (n, e, fs') -> other <> os.path f -> fs' !! other = fs !! other.
Proof.
  unfold os.Write. destruct (os.closed f); [intros [= _ _ <-]; reflexivity|].
  destruct (write_fault _ _ _); intros [= _ _ <-] Hne;
    rewrite lookup_insert_ne by congruence; reflexivity.
Qed.

Lemma Flush_err (fh : os.File) (b b' : bufio.Writer) (fs fs' : os.files) (e : error) :
  bufio.Flush fh b fs = (b', fs', Some e) -> bufio.err b' = Some e.
Proof.
  unfold bufio.Flush. destruct (bufio.err b) eqn:Eb; [intros [= <- _ <-]; exact Eb|].
  destruct (bufio.Buffered b =? 0)%nat; [discriminate|].
  destruct (os.Write fh (bufio.buf b) fs) as [[n e0] fs0].
  destruct e0; [intros [= <- _ <-]; reflexivity|].
  destruct (n <? bufio.Buffered b)%nat; [intros [= <- _ <-]; reflexivity|discriminate].
Qed.

Lemma Flush_ok (fh : os.File) (b b' : bufio.Writer) (fs fs' : os.files) (disk : list byte) :
  bufio.Flush fh b fs = (b', fs', None) ->
  fs !! os.path fh = Some disk ->
  bufio.err b = None /\ b' = bufio.mkWriter [] None /\
  fs' !! os.path fh = Some (disk ++ bufio.buf b).
Proof.
  unfold bufio.Flush. intros E Hd. destruct (bufio.err b) eqn:Eb; [discriminate|].
  split; [reflexivity|]. unfold bufio.Buffered in E.
  destruct (Nat.eqb_spec (length (bufio.buf b)) 0) as [H0|_].
  - injection E as <- <-. apply length_zero_iff_nil in H0.
    destruct b as [bb eb]; cbn in *. subst. rewrite app_nil_r. auto.
  - destruct (os.Write fh (bufio.buf b) fs) as [[n e0] fs0] eqn:Ew.
    destruct e0; [discriminate|].
    destruct (n <? _)%nat; [discriminate|]. injection E as <- <-.
    apply os_Write_ok in Ew as [_ ->].
    rewrite lookup_insert_eq, Hd. auto.
Qed.

Lemma Flush_other (fh : os.File) (b b' : bufio.Writer) (fs fs' : os.files)
    (e : option error) (other : string) :
  bufio.Flush fh b fs = (b', fs', e) -> other <> os.path fh -> fs' !! other = fs !! other.
Proof.
  unfold bufio.Flush. destruct (bufio.err b); [intros [= _ <- _]; reflexivity|].
  destruct (bufio.Buffered b =? 0)%nat; [intros [= _ <- _]; reflexivity|].
  destruct (os.Write fh (bufio.buf b) fs) as [[n e0] fs0] eqn:Ew.
  intros E Hne. rewrite <- (os_Write_other _ _ _ _ _ _ other Ew Hne).
  destruct e0; [|destruct (n <? _)%nat]; injection E as _ <- _; reflexivity.
Qed.

(** A pending error stops the loop at once. *)
Lemma writeLoop_err (fuel : nat) (fh : os.File) (b : bufio.Writer) (p : list byte)
    (nn : nat) (fs : os.files) :
  is_Some (bufio.err b) -> bufio.writeLoop fuel fh b p nn fs = (b, p, nn, fs).
Proof.
  intros He. destruct fuel; [reflexivity|]. cbn [bufio.writeLoop].
  rewrite (bool_decide_eq_true_2 _ He), Bool.andb_false_r. reflexivity.
Qed.

(** What the loop has done when it ends without an error: the bytes
    in the file, in the buffer and still to be copied are, in this
    order, the bytes that were there and the bytes of [p]. *)
Lemma writeLoop_ok (fuel : nat) (fh : os.File) (b b1 : bufio.Writer) (p p1 : list byte)
    (nn nn1 : nat) (fs fs1 : os.files) (disk : list byte) :
  bufio.writeLoop fuel fh b p nn fs = (b1, p1, nn1, fs1) ->
  bufio.err b1 = None ->
  fs !! os.path fh = Some disk ->
  bufio.err b = None /\
  (nn1 + length p1 = nn + length p)%nat /\
  exists disk1, fs1 !! os.path fh = Some disk1 /\
    disk1 ++ bufio.buf b1 ++ p1 = disk ++ bufio.buf b ++ p.
Proof.
  revert b p nn fs disk. induction fuel as [|fuel IH]; intros b p nn fs disk E He Hd.
  - injection E as <- <- <- <-. eauto.
  - cbn [bufio.writeLoop] in E.
    destruct (bufio.err b) as [e|] eqn:Eb.
    { rewrite bool_decide_eq_true_2, Bool.andb_false_r in E by eauto.
      injection E as <- <- <- <-. congruence. }
    split; [reflexivity|].
    destruct ((bufio.Available b <? length p)%nat && _) eqn:Ec;
      [|injection E as <- <- <- <-; eauto].
    unfold bufio.Buffered in E.
    destruct (Nat.eqb_spec (length (bufio.buf b)) 0) as [H0|_].
    + apply length_zero_iff_nil in H0.
      destruct (os.Write fh p fs) as [[n e] fs'] eqn:Ew.
      destruct e as [e|].
      { rewrite writeLoop_err in E by (cbn; eauto).
        injection E as <- <- <- <-. discriminate. }
      apply os_Write_ok in Ew as [-> ->]. rewrite Hd in E. cbn [default] in E.
      eapply IH in E as (_ & Hn & disk1 & Hd1 & Hs);
        [|exact He|apply lookup_insert_eq].
      cbn [bufio.buf] in Hs. rewrite length_drop in Hn. split; [lia|].
      exists disk1. split; [exact Hd1|]. rewrite Hs, H0, drop_all.
      rewrite app_nil_r. reflexivity.
    + set (n := Nat.min (bufio.Available b) (length p)) in *.
      destruct (bufio.Flush fh (bufio.mkWriter (bufio.buf b ++ take n p) None) fs)
        as [[b' fs'] e] eqn:Ef.
      destruct e as [e|].
      { apply Flush_err in Ef. rewrite writeLoop_err in E by eauto.
        injection E as <- <- <- <-. congruence. }
      eapply Flush_ok in Ef as (_ & -> & Hd'); [|exact Hd]. cbn [bufio.buf] in Hd'.
      eapply IH in E as (_ & Hn & disk1 & Hd1 & Hs); [|exact He|exact Hd'].
      cbn [bufio.buf] in Hs. rewrite length_drop in Hn. split; [lia|].
      exists disk1. split; [exact Hd1|]. rewrite Hs. cbn [app].
      rewrite <- !app_assoc, take_drop. reflexivity.
Qed.

Lemma writeLoop_S (fuel : nat) (fh : os.File) (b : bufio.Writer) (p : list byte)
    (nn : nat) (fs : os.files) :
  bufio.writeLoop (S fuel) fh b p nn fs =
    if (bufio.Available b <? length p)%nat && negb (bool_decide (is_Some (bufio.err b))) then
      if (bufio.Buffered b =? 0)%nat then
        let '(n, e, fs') := os.Write fh p fs in
        bufio.writeLoop fuel fh (bufio.mkWriter (bufio.buf b) e) (drop n p) (nn + n)%nat fs'
      else
        let n := Nat.min (bufio.Available b) (length p) in
        let '(b', fs', _) :=
          bufio.Flush fh (bufio.mkWriter (bufio.buf b ++ take n p) (bufio.err b)) fs in
        bufio.writeLoop fuel fh b' (drop n p) (nn + n)%nat fs'
    else (b, p, nn, fs).
Proof. reflexivity. Qed.

Lemma writeLoop_exit_empty (fuel : nat) (fh : os.File) (b b1 : bufio.Writer)
    (p p1 : list byte) (nn nn1 : nat) (fs fs1 : os.files) :
  bufio.buf b = [] ->
  bufio.writeLoop (S (S fuel)) fh b p nn fs = (b1, p1, nn1, fs1) ->
  bufio.err b1 = None -> (length p1 <= bufio.Available b1)%nat.
Proof.
  intros Hb E He. rewrite writeLoop_S in E.
  destruct ((bufio.Available b <? length p)%nat && _) eqn:Ec.
  - unfold bufio.Buffered in E. rewrite Hb in E. cbn [length Nat.eqb] in E.
    destruct (os.Write fh p fs) as [[n e] fs'] eqn:Ew.
    destruct e as [e|].
    { rewrite writeLoop_err in E by (cbn; eauto).
      injection E as <- <- <- <-. discriminate. }
    apply os_Write_ok in Ew as [-> ->]. rewrite drop_all, writeLoop_S in E.
    cbn [length] in E.
    destruct (Nat.ltb_spec (bufio.Available (bufio.mkWriter (bufio.buf b) None)) 0); [lia|].
    cbn [andb] in E. injection E as <- <- <- <-. cbn [length]. lia.
  - injection E as <- <- <- <-. rewrite He in Ec.
    rewrite bool_decide_eq_false_2, Bool.andb_true_r in Ec by (intros [? [=]]).
    apply Nat.ltb_ge in Ec. exact Ec.
Qed.

(** Three units of fuel are enough: the loop ends with an error
    pending or with the rest of [p] fitting in the buffer. *)
Lemma writeLoop_exit (fh : os.File) (b b1 : bufio.Writer) (p p1 : list byte)
    (nn nn1 : nat) (fs fs1 : os.files) :
  bufio.writeLoop 3 fh b p nn fs = (b1, p1, nn1, fs1) ->
  bufio.err b1 = None -> (length p1 <= bufio.Available b1)%nat.
Proof.
  intros E He. destruct (bufio.buf b) as [|x bb] eqn:Hb.
  { eapply writeLoop_exit_empty; eassumption. }
  rewrite writeLoop_S in E.
  destruct ((bufio.Available b <? length p)%nat && _) eqn:Ec.
  - unfold bufio.Buffered in E. rewrite Hb in E. cbn [length Nat.eqb] in E.
    destruct (bufio.Flush fh _ fs) as [[b' fs'] e] eqn:Ef.
    destruct e as [e|].
    { apply Flush_err in Ef.
      rewrite writeLoop_err in E by eauto.
      injection E as <- <- <- <-. congruence. }
    assert (Hb' : bufio.buf b' = []).
    { revert Ef. unfold bufio.Flush. cbn [bufio.err bufio.buf].
      destruct (bufio.err b); [discriminate|].
      destruct (bufio.Buffered _ =? 0)%nat eqn:E0.
      - unfold bufio.Buffered in E0. cbn [bufio.buf length] in E0. discriminate.
      - destruct (os.Write _ _ _) as [[n e] fs0]. destruct e; [discriminate|].
        destruct (n <? _)%nat; [discriminate|]. intros [= <- _]. reflexivity. }
    eapply writeLoop_exit_empty; eassumption.
  - injection E as <- <- <- <-. rewrite He in Ec.
    rewrite bool_decide_eq_false_2, Bool.andb_true_r in Ec by (intros [? [=]]).
    apply Nat.ltb_ge in Ec. exact Ec.
Qed.

Lemma writeLoop_other (fuel : nat) (fh : os.File) (b b1 : bufio.Writer) (p p1 : list byte)
    (nn nn1 : nat) (fs fs1 : os.files) (other : string) :
  bufio.writeLoop fuel fh b p nn fs = (b1, p1, nn1, fs1) ->
  other <> os.path fh -> fs1 !! other = fs !! other.
Proof.
  intros E Hne. revert b p nn fs E.
  induction fuel as [|fuel IH]; intros b p nn fs E; [injection E as _ _ _ <-; reflexivity|].
  cbn [bufio.writeLoop] in E.
  destruct ((bufio.Available b <? length p)%nat && _);
    [|injection E as _ _ _ <-; reflexivity].
  destruct (bufio.Buffered b =? 0)%nat.
  - destruct (os.Write fh p fs) as [[n e] fs'] eqn:Ew.
    rewrite (IH _ _ _ _ E). eapply os_Write_other; eassumption.
  - destruct (bufio.Flush fh _ fs) as [[b' fs'] e] eqn:Ef.
    rewrite (IH _ _ _ _ E). eapply Flush_other; eassumption.
Qed.

Lemma Write_err (fh : os.File) (b b' : bufio.Writer) (p : list byte) (fs fs' : os.files)
    (n : nat) (e : error) :
  bufio.Write fh b p fs = (b', fs', n, Some e) -> bufio.err b' = Some e.
Proof.
  unfold bufio.Write. destruct (bufio.writeLoop 3 fh b p 0 fs) as [[[b1 p1] nn] fs1].
  destruct (bufio.err b1) eqn:Eb; [|discriminate]. intros [= <- _ _ <-]. exact Eb.
Qed.

(** A write that reports no error has taken all of [p]: the file
    followed by the buffer has grown by exactly these bytes. *)
Lemma Write_ok (fh : os.File) (b b' : bufio.Writer) (p : list byte) (fs fs' : os.files)
    (n : nat) (disk : list byte) :
  bufio.Write fh b p fs = (b', fs', n, None) ->
  fs !! os.path fh = Some disk ->
  bufio.err b = None /\ bufio.err b' = None /\ n = length p /\
  exists disk', fs' !! os.path fh = Some disk' /\
    disk' ++ bufio.buf b' = disk ++ bufio.buf b ++ p.
Proof.
  unfold bufio.Write. intros E Hd.
  destruct (bufio.writeLoop 3 fh b p 0 fs) as [[[b1 p1] nn] fs1] eqn:El.
  destruct (bufio.err b1) eqn:Eb; [discriminate|]. injection E as <- <- <-.
  pose proof (writeLoop_exit _ _ _ _ _ _ _ _ _ El Eb) as Hfit.
  destruct (writeLoop_ok _ _ _ _ _ _ _ _ _ _ _ El Eb Hd) as (Hb & Hn & disk1 & Hd1 & Hs).
  rewrite Nat.min_r by exact Hfit. rewrite take_ge by lia.
  split; [exact Hb|]. split; [reflexivity|]. split; [lia|].
  exists disk1. split; [exact Hd1|]. cbn [bufio.buf]. exact Hs.
Qed.

Lemma Write_other (fh : os.File) (b b' : bufio.Writer) (p : list byte) (fs fs' : os.files)
    (n : nat) (e : option error) (other : string) :
  bufio.Write fh b p fs = (b', fs', n, e) ->
  other <> os.path fh -> fs' !! other = fs !! other.
Proof.
  unfold bufio.Write. intros E Hne.
  destruct (bufio.writeLoop 3 fh b p 0 fs) as [[[b1 p1] nn] fs1] eqn:El.
  rewrite <- (writeLoop_other _ _ _ _ _ _ _ _ _ _ other El Hne).
  destruct (bufio.err b1); injection E as _ <- _ _; reflexivity.
Qed.

End WriterFacts.

(** ** Appending to the journal *)

Section LogFacts.
Context {any : Type} `{Gob any} `{Disk}.

Lemma log_fields (j j' : journal) (fs fs' : os.files) (op : Op) (key : string)
    (value : any) (r : option error) :
  log j fs op key value = (j', fs', r) -> fh j' = fh j /\ name j' = name j.
Proof.
  unfold log. destruct (gobEncodeTx _) as [b|]; [|intros [= <- _ _]; auto].
  destruct (bufio.Write (fh j) (bufWriter j) _ fs) as [[[w1 fs1] n1] e1].
  destruct e1; [intros [= <- _ _]; auto|].
  destruct (negb (n1 =? 9)%nat); [intros [= <- _ _]; auto|].
  destruct (bufio.Write (fh j) w1 b fs1) as [[[w2 fs2] n2] e2].
  destruct e2; [intros [= <- _ _]; auto|].
  destruct (negb _); intros [= <- _ _]; auto.
Qed.

Lemma log_other (j j' : journal) (fs fs' : os.files) (op : Op) (key : string)
    (value : any) (r : option error) (other : string) :
  log j fs op key value = (j', fs', r) ->
  other <> os.path (fh j) -> fs' !! other = fs !! other.
Proof.
  unfold log. intros E Hne. destruct (gobEncodeTx _) as [b|]; [|injection E as _ <- _; auto].
  destruct (bufio.Write (fh j) (bufWriter j) _ fs) as [[[w1 fs1] n1] e1] eqn:E1.
  pose proof (Write_other _ _ _ _ _ _ _ _ other E1 Hne) as H1.
  destruct e1; [injection E as _ <- _; auto|].
  destruct (negb (n1 =? 9)%nat); [injection E as _ <- _; auto|].
  destruct (bufio.Write (fh j) w1 b fs1) as [[[w2 fs2] n2] e2] eqn:E2.
  pose proof (Write_other _ _ _ _ _ _ _ _ other E2 Hne) as H2.
  destruct e2; [|destruct (negb _)]; injection E as _ <- _; congruence.
Qed.

(** A successful append: the value was encoded, the payload fits the
    32-bit length of the header, and the journal has grown by the
    frame of the record. *)
Lemma log_ok (j j' : journal) (fs fs' : os.files) (op : Op) (key : string)
    (value : any) (disk : list byte) :
  log j fs op key value = (j', fs', None) ->
  fs !! os.path (fh j) = Some disk ->
  exists b disk',
    gobEncodeTx (mkTx key value) = Some b /\ Z.of_nat (length b) < 2 ^ 32 /\
    bufio.err (bufWriter j) = None /\ bufio.err (bufWriter j') = None /\
    fs' !! os.path (fh j) = Some disk' /\
    disk' ++ bufio.buf (bufWriter j') = disk ++ bufio.buf (bufWriter j) ++ frame (op, b).
Proof.
  unfold log. intros E Hd. destruct (gobEncodeTx _) as [b|]; [|discriminate].
  destruct (bufio.Write (fh j) (bufWriter j) _ fs) as [[[w1 fs1] n1] e1] eqn:E1.
  destruct e1; [discriminate|].
  destruct (negb (n1 =? 9)%nat); [discriminate|].
  destruct (bufio.Write (fh j) w1 b fs1) as [[[w2 fs2] n2] e2] eqn:E2.
  destruct e2; [discriminate|].
  destruct (Z.eqb_spec (Z.of_nat n2) (uint32 (Z.of_nat (length b)))) as [Hn|]; [|discriminate].
  injection E as <- <-. cbn [bufWriter].
  destruct (Write_ok _ _ _ _ _ _ _ _ E1 Hd) as (Hb & Hb1 & _ & disk1 & Hd1 & Hs1).
  destruct (Write_ok _ _ _ _ _ _ _ _ E2 Hd1) as (_ & Hb2 & -> & disk2 & Hd2 & Hs2).
  exists b, disk2. split; [reflexivity|].
  assert (Hlen : Z.of_nat (length b) < 2 ^ 32).
  { unfold uint32 in Hn. rewrite Hn. apply Z.mod_pos_bound. lia. }
  repeat (split; [assumption|]).
  rewrite Hs2, (app_assoc disk1), Hs1. unfold frame. cbn [fst snd].
  unfold uint32. rewrite (Z.mod_small (Z.of_nat (length b))) by lia.
  rewrite <- !app_assoc. reflexivity.
Qed.

(** An append that leaves no error in the writer has not failed,
    when the value is one gob encodes into fewer than 2^32 bytes. *)
Lemma log_no_pending_error (j j' : journal) (fs fs' : os.files) (op : Op) (key : string)
    (value : any) (r : option error) (b disk : list byte) :
  gobEncodeTx (mkTx key value) = Some b -> Z.of_nat (length b) < 2 ^ 32 ->
  log j fs op key value = (j', fs', r) ->
  fs !! os.path (fh j) = Some disk ->
  bufio.err (bufWriter j') = None -> r = None.
Proof.
  unfold log. intros -> Hlen E Hd He.
  destruct (bufio.Write (fh j) (bufWriter j) _ fs) as [[[w1 fs1] n1] e1] eqn:E1.
  destruct e1 as [e1|].
  { apply Write_err in E1. injection E as <- _ _. cbn in He. congruence. }
  destruct (Write_ok _ _ _ _ _ _ _ _ E1 Hd) as (_ & _ & -> & disk1 & Hd1 & _).
  rewrite jEncode_length in E. cbn [Nat.eqb negb] in E.
  destruct (bufio.Write (fh j) w1 b fs1) as [[[w2 fs2] n2] e2] eqn:E2.
  destruct e2 as [e2|].
  { apply Write_err in E2. injection E as <- _ _. cbn in He. congruence. }
  destruct (Write_ok _ _ _ _ _ _ _ _ E2 Hd1) as (_ & _ & -> & _).
  unfold uint32 in E. rewrite Z.mod_small, Z.eqb_refl in E by lia.
  injection E as _ _ <-. reflexivity.
Qed.

End LogFacts.

(** ** The store: Set, Unset, Get *)

Section StoreFacts.
Context {any : Type} `{Gob any} `{Disk}.



(** C1 (what the code does): [Unset] of a key that is in the map
    appends through [log] but leaves the map in memory as it was, so
    the [Get] that follows still finds the key. *)
Theorem C1_Unset_keeps_key_in_memory (kv : KV any) (fs : os.files) (key : string)
    (value : any) :
  ready kv = true -> mu kv = false -> memory kv !! key = Some value ->
  exists r kv' fs',
    Unset kv fs key = Returns r kv' fs' /\
    (kvJournal kv', fs') = (log (kvJournal kv) fs OpUnset key nil_any).1 /\
    memory kv' = memory kv /\
    Get kv' fs' key = Returns (value, true, None) kv' fs'.
Proof.
  intros Hr Hm Hk. unfold Unset, Lock. rewrite Hr, Hm. cbn. rewrite Hk.
  destruct (log (kvJournal kv) fs OpUnset key nil_any) as [[j fs1] [e|]];
    do 3 eexists; (split; [reflexivity|]); cbn;
    (split; [reflexivity|]); (split; [reflexivity|]);
    unfold Get, Lock; cbn; rewrite Hk; reflexivity.
Qed.

End StoreFacts.

Example sample_New : New "test.db" "test.wal" ∅ = (inl sample.kv0, sample.fs0).
Proof. vm_compute. reflexivity. Qed.

Example sample_kv1 :
  sample.kv1 =
    mkKV {[ "foo" := sample.VByte x01 ]} "test.db"
      (mkJournal (os.mkFile "test.wal" false)
         (bufio.mkWriter (frame (OpSet, [x01; x01; x66; x6f; x6f])) None) "test.wal")
      false true
  /\ sample.fs1 = sample.fs0.
Proof. split; vm_compute; reflexivity. Qed.



Lemma C1_witness :
  exists r kv' fs',
    Unset sample.kv1 sample.fs1 "foo" = Returns r kv' fs' /\
    (kvJournal kv', fs') = (log (kvJournal sample.kv1) sample.fs1 OpUnset "foo" nil_any).1 /\
    memory kv' = memory sample.kv1 /\
    Get kv' fs' "foo" = Returns (sample.VByte x01, true, None) kv' fs'.
Proof.
  apply (C1_Unset_keeps_key_in_memory sample.kv1 sample.fs1 "foo" (sample.VByte x01));
    vm_compute; reflexivity.
Defined.

(** [Unset("foo")] on the store that holds "foo": the call returns
    (true, nil) and [Get("foo")] still answers (1, true, nil). *)
Example Unset_then_Get :
  exists kv' fs',
    Unset sample.kv1 sample.fs1 "foo" = Returns (true, None) kv' fs' /\
    Get kv' fs' "foo" = Returns (sample.VByte x01, true, None) kv' fs'.
Proof. do 2 eexists. split; vm_compute; reflexivity. Qed.

(** After [Unset] of an absent key the mutex is still held: the next
    call on the store waits for ever. *)
Example Unset_absent_then_Get_blocks :
  exists kv',
    Unset sample.kv1 sample.fs1 "missing" = Returns (true, None) kv' sample.fs1 /\
    Get kv' sample.fs1 "foo" = Blocks.
Proof. eexists. split; vm_compute; reflexivity. Qed.

(** ** Restart: New over the files that a store left *)

Section RestartFacts.
Context {any : Type} `{Gob any} `{Disk}.

Lemma play_empty (filename : string) (m : gmap string any) (fs : os.files) :
  fs !! filename = Some [] -> play filename m fs = (m, None).
Proof. intros E. unfold play. rewrite E. reflexivity. Qed.

Lemma Stat_Some (filename : string) (fs : os.files) (data : list byte) :
  fs !! filename = Some data -> os.Stat filename fs = true.
Proof. intros E. unfold os.Stat. now rewrite E. Qed.

(** [newJournal] over a journal that replays without error. *)
Lemma newJournal_replayed (filename : string) (m m' : gmap string any) (fs : os.files) :
  os.Stat filename fs = true -> play filename m fs = (m', None) ->
  newJournal filename m fs =
    (inl (mkJournal (os.mkFile filename false) bufio.NewWriter filename), m',
     <[filename := []]> fs).
Proof. intros Hs Hp. unfold newJournal. rewrite Hs, Hp. reflexivity. Qed.

Lemma newJournal_failed (filename : string) (m m' : gmap string any) (fs : os.files)
    (e : error) :
  os.Stat filename fs = true -> play filename m fs = (m', Some e) ->
  newJournal filename m fs = (inr (Wrap "play" e), m', fs).
Proof. intros Hs Hp. unfold newJournal. rewrite Hs, Hp. reflexivity. Qed.

(** Whatever [newJournal] finds, the journal it returns is a new writer
    on the emptied file. *)
Lemma newJournal_ok (filename : string) (m m' : gmap string any) (fs fs' : os.files)
    (j : journal) :
  newJournal filename m fs = (inl j, m', fs') ->
  j = mkJournal (os.mkFile filename false) bufio.NewWriter filename /\
  fs' = <[filename := []]> fs.
Proof.
  unfold newJournal.
  destruct (if os.Stat filename fs then play filename m fs else (m, None)) as [m1 [e|]];
    [discriminate|].
  cbn. intros [= <- _ <-]. auto.
Qed.

(** [New] over a snapshot that decodes. *)
Lemma New_loaded (dbName walName : string) (fs : os.files) (snap : list byte)
    (m0 : gmap string any) :
  fs !! dbName = Some snap -> gobDecodeMap snap = Some m0 ->
  New dbName walName fs =
    match newJournal walName m0 fs with
    | (inr e, _, fs2) => (inr (Wrap "creating journal" e), fs2)
    | (inl j, m, fs2) => (inl (mkKV m dbName j false true), fs2)
    end.
Proof.
  intros Hs Hd. unfold New, loadFromGob. rewrite (Stat_Some _ _ _ Hs), Hs, Hd. reflexivity.
Qed.

Lemma dump_ok (kv : KV any) (fs fs' : os.files) :
  dump kv fs = (fs', None) ->
  exists b, gobEncodeMap (memory kv) = Some b /\
    fs' !! fileName kv = Some b /\
    forall other, other <> fileName kv -> fs' !! other = fs !! other.
Proof.
  unfold dump, encodeMapTo, os.Create. destruct (ready kv); [|discriminate]. cbn [negb].
  destruct (gobEncodeMap (memory kv)) as [b|]; [|discriminate].
  destruct (os.Write _ b _) as [[n e] fs1] eqn:Ew.
  destruct e; [discriminate|]. intros [= <-].
  apply os_Write_ok in Ew as [_ ->]. cbn [os.path] in *.
  exists b. split; [reflexivity|]. rewrite !lookup_insert_eq. cbn.
  split; [reflexivity|]. intros other Hne. rewrite !lookup_insert_ne by congruence.
  reflexivity.
Qed.

Lemma truncate_ok (j j' : journal) (fs fs' : os.files) :
  truncate j fs = (j', fs', None) ->
  j' = mkJournal (os.mkFile (name j) false) bufio.NewWriter (name j) /\
  fs' !! name j = Some [] /\
  forall other, other <> name j -> other <> os.path (fh j) -> fs' !! other = fs !! other.
Proof.
  unfold truncate, close, flush.
  destruct (bufio.Flush (fh j) (bufWriter j) fs) as [[b fs1] e] eqn:Ef.
  destruct e; [discriminate|]. cbn. intros [= <- <-].
  split; [reflexivity|]. rewrite lookup_insert_eq. split; [reflexivity|].
  intros other Hn Hp. rewrite lookup_insert_ne by congruence.
  eapply Flush_other; eassumption.
Qed.

End RestartFacts.

Section Restart.
Context {any : Type} `{GobRoundTrip any} `{Disk}.

(** C5: after a [Coalesce] that returned nil the journal file is empty,
    and [New] over the snapshot and journal files it left gives a store
    whose map is the map the store had before: loading what was dumped
    is the identity. *)
Theorem C5_Coalesce_then_restart (kv kv' : KV any) (fs fs' : os.files) :
  idle kv ->
  Coalesce kv fs = Returns None kv' fs' ->
  fs' !! name (kvJournal kv) = Some [] /\
  memory kv' = memory kv /\
  exists kv2 fs2,
    New (fileName kv) (name (kvJournal kv)) fs' = (inl kv2, fs2) /\
    memory kv2 = memory kv.
Proof.
  intros (Hr & Hm & Hp & Hne) E. unfold Coalesce, Lock in E. rewrite Hr, Hm in E.
  cbn [negb] in E.
  destruct (dump _ fs) as [fs1 [e|]] eqn:Ed; [discriminate|].
  cbn [kvJournal] in E.
  destruct (truncate (kvJournal kv) fs1) as [[j fs2] [e|]] eqn:Et; [discriminate|].
  injection E as <- <-.
  apply dump_ok in Ed as (b & Hb & Hsnap & _). cbn [memory fileName] in *.
  apply truncate_ok in Et as (-> & Hwal & Hother).
  split; [exact Hwal|]. split; [reflexivity|].
  assert (Hsnap2 : fs2 !! fileName kv = Some b).
  { rewrite Hother by congruence. exact Hsnap. }
  rewrite (New_loaded _ _ _ _ _ Hsnap2 (gob_map_roundtrip _ _ Hb)).
  rewrite (newJournal_replayed _ _ (memory kv) _ (Stat_Some _ _ _ Hwal)
             (play_empty _ _ _ Hwal)).
  do 2 eexists. split; reflexivity.
Qed.

Lemma Flush_ok_err (f : os.File) (b b' : bufio.Writer) (fs fs' : os.files) :
  bufio.Flush f b fs = (b', fs', None) -> bufio.err b = None.
Proof. unfold bufio.Flush. destruct (bufio.err b); [discriminate|reflexivity]. Qed.

Lemma validRecord_encoded (op : Op) (tx : Tx any) (b : list byte) :
  0 <= op < 256 -> gobEncodeTx tx = Some b -> Z.of_nat (length b) < 2 ^ 32 ->
  validRecord (op, b).
Proof.
  intros Hop Hb Hlen. split; [exact Hop|]. split; [exact Hlen|].
  exists tx. apply gob_tx_roundtrip, Hb.
Qed.

Lemma applyRecord_Set (m : gmap string any) (key : string) (value : any) (b : list byte) :
  gobEncodeTx (mkTx key value) = Some b ->
  applyRecord m (OpSet, b) = <[key := value]> m.
Proof.
  intros Hb. unfold applyRecord. cbn [fst snd].
  rewrite (gob_tx_roundtrip _ _ Hb). reflexivity.
Qed.

(** C2: on a store whose files a restart can load, [Set(k, v)] of a
    value that gob encodes, followed by a [Flush] that returned nil,
    leaves files over which [New] gives a store where [Get(k)] returns
    (v, true, nil): the replay of the bytes that [log] wrote makes the
    change again. *)
Theorem C2_Set_Flush_restart (kv kv1 kv2 : KV any) (fs fs1 fs2 : os.files)
    (key : string) (value : any) (b : list byte) :
  idle kv -> restartable kv fs ->
  gobEncodeTx (mkTx key value) = Some b -> Z.of_nat (length b) < 2 ^ 32 ->
  Set_ kv fs key value = Returns None kv1 fs1 ->
  Flush kv1 fs1 = Returns None kv2 fs2 ->
  exists kv3 fs3,
    New (fileName kv) (name (kvJournal kv)) fs2 = (inl kv3, fs3) /\
    memory kv3 !! key = Some value /\
    Get kv3 fs3 key = Returns (value, true, None) kv3 fs3.
Proof.
  intros (Hr & Hm & Hp & Hne) ((snap & m0 & Hsnap & Hdec) & disk & Hdisk & Hinv)
    Henc Hlen ESet EFlush.
  unfold Set_, Lock in ESet. rewrite Hr, Hm in ESet. cbn [negb] in ESet.
  destruct (log _ fs OpSet key value) as [[j1 fs1'] r] eqn:El.
  injection ESet as <- <-. cbn [Unlock withMemory kvJournal] in El.
  unfold Flush in EFlush. cbn [withJournal Unlock withMemory ready kvJournal negb] in EFlush.
  destruct (bufio.Flush (fh j1) (bufWriter j1) fs1') as [[b2 fs2'] e] eqn:Ef.
  destruct e as [e|]; [discriminate|].
  unfold Lock in EFlush. cbn in EFlush. injection EFlush as _ <-.
  destruct (log_fields _ _ _ _ _ _ _ _ El) as [Hfh Hname].
  rewrite <- Hp in Hdisk.
  pose proof (log_no_pending_error _ _ _ _ _ _ _ _ _ _ Henc Hlen El Hdisk
                (Flush_ok_err _ _ _ _ _ Ef)) as ->.
  destruct (log_ok _ _ _ _ _ _ _ _ El Hdisk) as (b' & disk1 & Hb' & _ & He & _ & Hd1 & Hs).
  rewrite Henc in Hb'. injection Hb' as <-.
  destruct (Hinv He) as (recs & Hrecs & Hvalid).
  rewrite Hfh in Ef.
  destruct (Flush_ok _ _ _ _ _ _ Ef Hd1) as (_ & _ & Hwal).
  rewrite Hs, app_assoc, Hrecs in Hwal. rewrite Hp in Hwal.
  assert (Hwal' : fs2' !! name (kvJournal kv) = Some (frames (recs ++ [(OpSet, b)]))).
  { rewrite frames_app. unfold frames at 2. cbn [map concat]. rewrite app_nil_r.
    exact Hwal. }
  assert (Hvalid' : Forall validRecord (recs ++ [(OpSet, b)])).
  { apply Forall_app. split; [exact Hvalid|]. constructor; [|constructor].
    eapply validRecord_encoded; [unfold OpSet; lia|exact Henc|exact Hlen]. }
  assert (Hsnap' : fs2' !! fileName kv = Some snap).
  { rewrite (Flush_other _ _ _ _ _ _ (fileName kv) Ef) by congruence.
    rewrite (log_other _ _ _ _ _ _ _ _ (fileName kv) El) by congruence.
    exact Hsnap. }
  rewrite (New_loaded _ _ _ _ _ Hsnap' Hdec).
  rewrite (newJournal_replayed _ _ _ _ (Stat_Some _ _ _ Hwal')
             (play_frames _ _ m0 _ Hvalid' Hwal')).
  do 2 eexists. split; [reflexivity|]. cbn [memory].
  assert (Hk : replay (recs ++ [(OpSet, b)]) m0 !! key = Some value).
  { rewrite replay_app. unfold replay at 1. cbn [fold_left].
    rewrite (applyRecord_Set _ _ _ _ Henc). apply lookup_insert_eq. }
  split; [exact Hk|]. unfold Get, Lock. cbn. rewrite Hk. reflexivity.
Qed.

(** A run of appends that all succeeded has added the frames of its
    records, one per call and in the order of the calls. *)
Lemma logAll_ok (ops : list (Op * string * any)) (j j' : journal) (fs fs' : os.files)
    (disk : list byte) :
  Forall (fun o => 0 <= o.1.1 < 256) ops ->
  logAll j fs ops = (j', fs', None) ->
  fs !! os.path (fh j) = Some disk ->
  exists recs disk',
    Forall2 (fun o r => r.1 = o.1.1 /\ gobEncodeTx (mkTx o.1.2 o.2) = Some r.2) ops recs /\
    Forall validRecord recs /\
    fh j' = fh j /\ name j' = name j /\
    fs' !! os.path (fh j) = Some disk' /\
    disk' ++ bufio.buf (bufWriter j') = disk ++ bufio.buf (bufWriter j) ++ frames recs.
Proof.
  intros Hops. revert j fs disk.
  induction Hops as [|[[op key] value] ops Hop Hops IH]; intros j fs disk E Hd.
  - injection E as <- <-. exists [], disk. rewrite app_nil_r.
    repeat split; try constructor. exact Hd.
  - cbn [logAll] in E.
    destruct (log j fs op key value) as [[j1 fs1] r] eqn:El.
    destruct r as [e|]; [discriminate|].
    destruct (log_fields _ _ _ _ _ _ _ _ El) as [Hfh Hname].
    destruct (log_ok _ _ _ _ _ _ _ _ El Hd) as (b & disk1 & Hb & Hlen & _ & _ & Hd1 & Hs).
    rewrite <- Hfh in Hd1.
    destruct (IH _ _ _ E Hd1) as (recs & disk' & H2 & Hv & Hfh' & Hname' & Hd' & Hs').
    exists ((op, b) :: recs), disk'. cbn [fst snd] in Hop.
    split; [constructor; [split; [reflexivity|exact Hb]|exact H2]|].
    split; [constructor; [eapply validRecord_encoded; eassumption|exact Hv]|].
    split; [congruence|]. split; [congruence|].
    split; [rewrite <- Hfh; exact Hd'|].
    rewrite Hs', app_assoc, Hs, frames_cons, <- !app_assoc. reflexivity.
Qed.

(** C6: take the journal file that [newJournal], a run of successful
    appends and a flush have left.  It is the sequence of the frames of
    the records appended; and if one byte of the payload of one of its
    records is changed to another value, the replay returns
    [ErrJournalCorrupt] when it reaches that record, so that
    [newJournal] and [New] over that file fail with this error. *)
Theorem C6_payload_byte_change_is_detected (filename : string) (m0 m1 : gmap string any)
    (fs0 fs1 fs2 fs3 : os.files) (j0 j j' : journal) (ops : list (Op * string * any)) :
  newJournal filename m0 fs0 = (inl j0, m1, fs1) ->
  Forall (fun o => 0 <= o.1.1 < 256) ops ->
  logAll j0 fs1 ops = (j, fs2, None) ->
  flush j fs2 = (j', fs3, None) ->
  exists recs,
    fs3 !! filename = Some (frames recs) /\
    Forall2 (fun o r => r.1 = o.1.1 /\ gobEncodeTx (mkTx o.1.2 o.2) = Some r.2) ops recs /\
    forall (pre post : list (Op * list byte)) (op : Op) (p1 p2 : list byte) (b c : byte)
           (m : gmap string any) (fs : os.files),
      recs = pre ++ (op, p1 ++ b :: p2) :: post ->
      c <> b ->
      fs !! filename =
        Some (frames pre
              ++ jEncode op (Z.of_nat (length (p1 ++ b :: p2)))
                   (crc32.ChecksumIEEE (p1 ++ b :: p2))
              ++ (p1 ++ c :: p2) ++ frames post) ->
      play filename m fs = (replay pre m, Some ErrJournalCorrupt) /\
      newJournal filename m fs = (inr (Wrap "play" ErrJournalCorrupt), replay pre m, fs) /\
      forall (dbName : string) (snap : list byte),
        fs !! dbName = Some snap -> gobDecodeMap snap = Some m ->
        New dbName filename fs =
          (inr (Wrap "creating journal" (Wrap "play" ErrJournalCorrupt)), fs).
Proof.
  intros Enew Hops Elog Eflush.
  apply newJournal_ok in Enew as [-> ->].
  assert (Hd0 : <[filename := []]> fs0 !! os.path (fh (mkJournal (os.mkFile filename false)
                   bufio.NewWriter filename)) = Some []) by apply lookup_insert_eq.
  destruct (logAll_ok _ _ _ _ _ _ Hops Elog Hd0)
    as (recs & disk & H2 & Hv & Hfh & Hname & Hd & Hs).
  cbn [fh bufWriter os.path bufio.buf bufio.NewWriter app] in Hd, Hs.
  unfold flush in Eflush.
  destruct (bufio.Flush (fh j) (bufWriter j) fs2) as [[w fs3'] e] eqn:Ef.
  destruct e as [e|]; [discriminate|]. injection Eflush as _ <-.
  rewrite Hfh in Ef. cbn [fh] in Ef.
  destruct (Flush_ok _ _ _ _ _ _ Ef Hd) as (_ & _ & Hwal).
  cbn [os.path] in Hwal. rewrite Hs in Hwal.
  exists recs. split; [exact Hwal|]. split; [exact H2|].
  intros pre post op p1 p2 b c m fs -> Hcb Hfs.
  apply Forall_app in Hv as [Hpre Hrest].
  apply Forall_cons in Hrest as [(Hop & Hlen & _) _]. cbn [fst snd] in Hop, Hlen.
  assert (Hplay : play filename m fs = (replay pre m, Some ErrJournalCorrupt)).
  { apply (play_corrupt filename pre op (crc32.ChecksumIEEE (p1 ++ b :: p2))
             (p1 ++ c :: p2) (frames post)); try assumption.
    - rewrite length_app in *. cbn [length] in *. exact Hlen.
    - apply crc32_facts.ChecksumIEEE_range.
    - apply crc32_facts.ChecksumIEEE_one_byte. congruence.
    - rewrite Hfs. do 3 f_equal. rewrite !length_app. reflexivity. }
  split; [exact Hplay|].
  pose proof (Stat_Some _ _ _ Hfs) as Hstat.
  split; [apply newJournal_failed; assumption|].
  intros dbName snap Hsnap Hdec.
  rewrite (New_loaded _ _ _ _ _ Hsnap Hdec).
  rewrite (newJournal_failed _ _ _ _ _ Hstat Hplay). reflexivity.
Qed.

End Restart.

(** ** The small instance: its codec round-trips, and the store on it *)

#[global] Instance sample_roundtrip : GobRoundTrip sample.value.
Proof.
  split.
  - intros [k v] b. cbn. unfold sample.encodeTx. cbn [Key Value].
    destruct v; cbn; intros [= <-]; cbn;
      rewrite String.string_of_list_byte_of_string; reflexivity.
  - intros m b. cbn. unfold sample.encodeMap.
    destruct (map_to_list m) as [|[k v] [|? ?]] eqn:E; [| |discriminate].
    + intros [= <-]. apply map_to_list_empty_iff in E. subst m. reflexivity.
    + destruct (sample.encodeTx (mkTx k v)) as [t|] eqn:Et; [|discriminate].
      intros [= <-]. cbn [sample.decodeMap].
      assert (Hd : sample.decodeTx t = Some (mkTx k v)).
      { revert Et. unfold sample.encodeTx. cbn [Key Value].
        destruct v; cbn; intros [= <-]; cbn;
          rewrite String.string_of_list_byte_of_string; reflexivity. }
      rewrite Hd. cbn [Key Value]. f_equal.
      rewrite <- (list_to_map_to_list m), E. cbn. symmetry. apply insert_empty.
Qed.

Lemma sample_idle_kv0 : idle sample.kv0.
Proof. repeat split. cbn. discriminate. Qed.

Lemma sample_restartable_kv0 : restartable sample.kv0 sample.fs0.
Proof.
  split.
  - exists [x00], ∅. split; reflexivity.
  - exists []. split; [reflexivity|]. intros _. exists []. split; [reflexivity|constructor].
Qed.

Lemma sample_idle_kv1 : idle sample.kv1.
Proof. repeat split. cbn. discriminate. Qed.

Lemma C2_witness :
  exists kv3 fs3,
    New (fileName sample.kv0) (name (kvJournal sample.kv0)) sample.fs2 = (inl kv3, fs3) /\
    memory kv3 !! "foo" = Some (sample.VByte x01) /\
    Get kv3 fs3 "foo" = Returns (sample.VByte x01, true, None) kv3 fs3.
Proof.
  apply (C2_Set_Flush_restart sample.kv0 sample.kv1 sample.kv2
           sample.fs0 sample.fs1 sample.fs2 "foo" (sample.VByte x01)
           [x01; x01; x66; x6f; x6f]).
  - exact sample_idle_kv0.
  - exact sample_restartable_kv0.
  - reflexivity.
  - vm_compute. reflexivity.
  - vm_compute. reflexivity.
  - vm_compute. reflexivity.
Defined.

Lemma C5_witness :
  sample.fsc !! name (kvJournal sample.kv1) = Some [] /\
  memory sample.kvc = memory sample.kv1 /\
  exists kv2 fs2,
    New (fileName sample.kv1) (name (kvJournal sample.kv1)) sample.fsc = (inl kv2, fs2) /\
    memory kv2 = memory sample.kv1.
Proof.
  apply (C5_Coalesce_then_restart sample.kv1 sample.kvc sample.fs1 sample.fsc).
  - exact sample_idle_kv1.
  - vm_compute. reflexivity.
Defined.

(** The store [kv1] holds "foo" -> 1; restarting after [Coalesce]
    finds it in the snapshot, with the journal empty. *)
Example Coalesce_then_New :
  sample.fsc = <["test.wal" := []]> (<["test.db" := [x01; x01; x01; x66; x6f; x6f]]> ∅) /\
  exists kv fs, New "test.db" "test.wal" sample.fsc = (inl kv, fs) /\
                memory kv = {[ "foo" := sample.VByte x01 ]}.
Proof. split; [|do 2 eexists; split]; vm_compute; reflexivity. Qed.

Lemma C6_witness :
  play "test.wal" (∅ : gmap string sample.value)
    {[ "test.wal" :=
         frames []
         ++ jEncode OpSet (Z.of_nat (length ([x01] ++ x07 :: [x61])))
              (crc32.ChecksumIEEE ([x01] ++ x07 :: [x61]))
         ++ ([x01] ++ x08 :: [x61]) ++ frames [] ]}
  = (replay [] ∅, Some ErrJournalCorrupt).
Proof.
  destruct (C6_payload_byte_change_is_detected "test.wal" ∅ ∅
              (<["test.db" := [x00]]> ∅) sample.fs0 sample.fsa sample.fsb
              sample.j0 sample.ja sample.jb [(OpSet, "a", sample.VByte x07)])
    as (recs & Hfile & H2 & Hdetect).
  - vm_compute. reflexivity.
  - constructor; [cbn; unfold OpSet; lia|constructor].
  - vm_compute. reflexivity.
  - vm_compute. reflexivity.
  - inversion H2 as [|o r ops' recs' [Hop Henc] Hrest]; subst.
    inversion Hrest; subst.
    destruct r as [op payload]. cbn in Hop, Henc. injection Henc as <-. subst op.
    apply (Hdetect [] [] OpSet [x01] [x61] x07 x08 ∅ _);
      [reflexivity|discriminate|reflexivity].
Defined.

(** The journal of the example: one Set record; flipping the value
    byte of its payload makes the restart fail. *)
Example journal_after_flush :
  sample.fsb !! "test.wal" = Some (frame (OpSet, sample.payload_a7)) /\
  fst (New "test.db" "test.wal" sample.fsb) =
    inl (mkKV {[ "a" := sample.VByte x07 ]} "test.db" sample.j0 false true) /\
  fst (New "test.db" "test.wal"
         (<["test.wal" := jEncode OpSet 3 (crc32.ChecksumIEEE sample.payload_a7)
                            ++ [x01; x08; x61]]> sample.fsb)) =
    inr (Wrap "creating journal" (Wrap "play" ErrJournalCorrupt)).
Proof. repeat split; vm_compute; reflexivity. Qed.

(** ** The conditions of a restart hold along the life of a store *)

Section Exists.
Context `{Disk}.

Lemma os_Write_exists (f : os.File) (p : list byte) (fs fs' : os.files) (n : nat)
    (e : option error) (file : string) :
  os.Write f p fs = (n, e, fs') -> is_Some (fs !! file) -> is_Some (fs' !! file).
Proof.
  unfold os.Write. intros E Hs.
  destruct (os.closed f); [injection E as _ _ <-; exact Hs|].
  destruct (write_fault _ _ _); injection E as _ _ <-;
    (destruct (decide (os.path f = file)) as [->|Hne];
     [rewrite lookup_insert_eq; eauto|rewrite lookup_insert_ne by exact Hne; exact Hs]).
Qed.

Lemma Flush_exists (f : os.File) (b b' : bufio.Writer) (fs fs' : os.files)
    (e : option error) (file : string) :
  bufio.Flush f b fs = (b', fs', e) -> is_Some (fs !! file) -> is_Some (fs' !! file).
Proof.
  unfold bufio.Flush. intros E Hs.
  destruct (bufio.err b); [injection E as _ <- _; exact Hs|].
  destruct (bufio.Buffered b =? 0)%nat; [injection E as _ <- _; exact Hs|].
  destruct (os.Write f (bufio.buf b) fs) as [[n e0] fs0] eqn:Ew.
  pose proof (os_Write_exists _ _ _ _ _ _ file Ew Hs) as Hs0.
  destruct e0; [|destruct (n <? _)%nat]; injection E as _ <- _; exact Hs0.
Qed.

Lemma writeLoop_exists (fuel : nat) (f : os.File) (b b1 : bufio.Writer) (p p1 : list byte)
    (nn nn1 : nat) (fs fs1 : os.files) (file : string) :
  bufio.writeLoop fuel f b p nn fs = (b1, p1, nn1, fs1) ->
  is_Some (fs !! file) -> is_Some (fs1 !! file).
Proof.
  revert b p nn fs. induction fuel as [|fuel IH]; intros b p nn fs E Hs;
    [injection E as _ _ _ <-; exact Hs|].
  rewrite writeLoop_S in E.
  destruct ((bufio.Available b <? length p)%nat && _);
    [|injection E as _ _ _ <-; exact Hs].
  destruct (bufio.Buffered b =? 0)%nat.
  - destruct (os.Write f p fs) as [[n e] fs'] eqn:Ew.
    apply (IH _ _ _ _ E). eapply os_Write_exists; eassumption.
  - cbv zeta in E. destruct (bufio.Flush f _ fs) as [[b' fs'] e] eqn:Ef.
    apply (IH _ _ _ _ E). eapply Flush_exists; eassumption.
Qed.

Lemma Write_exists (f : os.File) (b b' : bufio.Writer) (p : list byte) (fs fs' : os.files)
    (n : nat) (e : option error) (file : string) :
  bufio.Write f b p fs = (b', fs', n, e) -> is_Some (fs !! file) -> is_Some (fs' !! file).
Proof.
  unfold bufio.Write. intros E Hs.
  destruct (bufio.writeLoop 3 f b p 0 fs) as [[[b1 p1] nn] fs1] eqn:El.
  pose proof (writeLoop_exists _ _ _ _ _ _ _ _ _ _ file El Hs) as Hs1.
  destruct (bufio.err b1); injection E as _ <- _ _; exact Hs1.
Qed.

End Exists.

Section Invariant.
Context {any : Type} `{GobRoundTrip any} `{Disk}.

Lemma log_exists (j j' : journal) (fs fs' : os.files) (op : Op) (key : string)
    (value : any) (r : option error) (file : string) :
  log j fs op key value = (j', fs', r) -> is_Some (fs !! file) -> is_Some (fs' !! file).
Proof.
  unfold log. intros E Hs. destruct (gobEncodeTx _) as [b|]; [|injection E as _ <- _; auto].
  destruct (bufio.Write (fh j) (bufWriter j) _ fs) as [[[w1 fs1] n1] e1] eqn:E1.
  pose proof (Write_exists _ _ _ _ _ _ _ _ file E1 Hs) as H1'.
  destruct e1; [injection E as _ <- _; auto|].
  destruct (negb (n1 =? 9)%nat); [injection E as _ <- _; auto|].
  destruct (bufio.Write (fh j) w1 b fs1) as [[[w2 fs2] n2] e2] eqn:E2.
  pose proof (Write_exists _ _ _ _ _ _ _ _ file E2 H1') as H2'.
  destruct e2; [|destruct (negb _)]; injection E as _ <- _; exact H2'.
Qed.

(** An append keeps the files loadable, unless gob made a payload of
    2^32 bytes or more of the value. *)
Lemma log_restartable (kv : KV any) (fs fs' : os.files) (j' : journal) (op : Op)
    (key : string) (value : any) (r : option error) :
  idle kv -> restartable kv fs -> 0 <= op < 256 ->
  (forall b, gobEncodeTx (mkTx key value) = Some b -> Z.of_nat (length b) < 2 ^ 32) ->
  log (kvJournal kv) fs op key value = (j', fs', r) ->
  restartable (withJournal kv j') fs'.
Proof.
  intros (Hr & Hm & Hp & Hne) ((snap & m0 & Hsnap & Hdec) & disk & Hdisk & Hinv) Hop Hlen El.
  destruct (log_fields _ _ _ _ _ _ _ _ El) as [Hfh Hname].
  split; cbn [withJournal fileName kvJournal].
  - exists snap, m0. split; [|exact Hdec].
    rewrite (log_other _ _ _ _ _ _ _ _ (fileName kv) El) by congruence. exact Hsnap.
  - destruct (log_exists _ _ _ _ _ _ _ _ (name (kvJournal kv)) El ltac:(eauto)) as [disk' Hd'].
    rewrite Hname. exists disk'. split; [exact Hd'|]. intros He.
    rewrite <- Hp in Hdisk, Hd'.
    destruct (gobEncodeTx (mkTx key value)) as [b|] eqn:Henc.
    + pose proof (log_no_pending_error _ _ _ _ _ _ _ _ _ _ Henc (Hlen b eq_refl) El Hdisk He)
        as ->.
      destruct (log_ok _ _ _ _ _ _ _ _ El Hdisk)
        as (b' & disk1 & Hb' & Hl & He0 & _ & Hd1 & Hs).
      rewrite Henc in Hb'. injection Hb' as <-.
      destruct (Hinv He0) as (recs & Hrecs & Hvalid).
      exists (recs ++ [(op, b)]). rewrite Hd1 in Hd'. injection Hd' as <-.
      split.
      * rewrite Hs, app_assoc, Hrecs, frames_app. unfold frames at 3.
        cbn [map concat]. rewrite app_nil_r. reflexivity.
      * apply Forall_app. split; [exact Hvalid|]. constructor; [|constructor].
        eapply validRecord_encoded; eassumption.
    + unfold log in El. rewrite Henc in El. injection El as <- <- _.
      rewrite Hd' in Hdisk. injection Hdisk as <-. apply Hinv, He.
Qed.

(** [New] leaves an idle store over loadable files. *)
Lemma New_idle_restartable (dbName walName : string) (fs fs' : os.files) (kv : KV any) :
  dbName <> walName -> New dbName walName fs = (inl kv, fs') ->
  idle kv /\ restartable kv fs'.
Proof.
  intros Hne E. unfold New in E.
  assert (Hload : exists fs1 snap m0 m j,
             newJournal walName m0 fs1 = (inl j, m, fs') /\
             kv = mkKV m dbName j false true /\
             fs1 !! dbName = Some snap /\ gobDecodeMap snap = Some m0).
  { destruct (os.Stat dbName fs) eqn:Hs.
    - unfold loadFromGob in E. destruct (fs !! dbName) as [snap|] eqn:Hsnap; [|discriminate].
      destruct (gobDecodeMap snap) as [m0|] eqn:Hdec; [|discriminate].
      destruct (newJournal walName m0 fs) as [[[j|e] m] fs2] eqn:Ej; [|discriminate].
      injection E as <- <-. exists fs, snap, m0, m, j. auto.
    - unfold createEmptyGob, encodeMapTo, os.Create in E.
      destruct (gobEncodeMap ∅) as [b|] eqn:Hb; [|discriminate].
      destruct (os.Write _ b _) as [[n e] fs1] eqn:Ew.
      destruct e; [discriminate|].
      destruct (newJournal walName ∅ fs1) as [[[j|e] m] fs2] eqn:Ej; [|discriminate].
      injection E as <- <-.
      apply os_Write_ok in Ew as [_ ->]. cbn [os.path] in Ej.
      rewrite lookup_insert_eq in Ej. cbn [default app] in Ej.
      exists (<[dbName := b]> (<[dbName := []]> fs)), b, ∅, m, j.
      rewrite lookup_insert_eq. split; [exact Ej|]. split; [reflexivity|].
      split; [reflexivity|]. apply gob_map_roundtrip, Hb. }
  clear E. destruct Hload as (fs1 & snap & m0 & m & j & Ej & -> & Hsnap & Hdec).
  apply newJournal_ok in Ej as [-> ->].
  split.
  - unfold idle. cbn. auto.
  - split; cbn [fileName kvJournal name bufWriter].
    + exists snap, m0. rewrite lookup_insert_ne by congruence. auto.
    + exists []. rewrite lookup_insert_eq. split; [reflexivity|].
      intros _. exists []. split; [reflexivity|constructor].
Qed.

(** X25: [Set] keeps the store idle and its files loadable by a
    restart, whether its append succeeds or fails, as long as gob does
    not make a payload of 2^32 bytes or more of the value. *)
Lemma Set_idle_restartable (kv kv' : KV any) (fs fs' : os.files) (key : string)
    (value : any) (r : option error) :
  idle kv -> restartable kv fs ->
  (forall b, gobEncodeTx (mkTx key value) = Some b -> Z.of_nat (length b) < 2 ^ 32) ->
  Set_ kv fs key value = Returns r kv' fs' ->
  idle kv' /\ restartable kv' fs'.
Proof.
  intros Hidle Hrest Hlen E. pose proof Hidle as (Hr & Hm & Hp & Hne).
  unfold Set_, Lock in E. rewrite Hr, Hm in E. cbn [negb] in E.
  destruct (log _ fs OpSet key value) as [[j1 fs1] r1] eqn:El.
  injection E as _ <- <-. cbn [Unlock withMemory kvJournal] in El.
  destruct (log_fields _ _ _ _ _ _ _ _ El) as [Hfh Hname].
  split.
  - unfold idle. cbn. rewrite Hfh, Hname. auto.
  - apply (log_restartable kv fs fs1 j1 OpSet key value r1 Hidle Hrest
             ltac:(unfold OpSet; lia) Hlen) in El.
    exact El.
Qed.

End Invariant.

(** On a full disk: the first [Set] fills the buffer only, the [Flush]
    fails and leaves its error in the writer, the append of the second
    [Set] fails on that error, and this [Set] returns nil all the same,
    with the value in memory. *)
Example Set_on_full_disk :
  @Set_ _ sample.gob sample.fullDisk sample.kv0 sample.fs0 "foo" (sample.VByte x01)
    = Returns None sample.full1.1 sample.full1.2 /\
  @Flush _ sample.fullDisk sample.full1.1 sample.full1.2
    = Returns (Some (Wrap "flush" ErrDisk)) sample.full2.1 sample.full2.2 /\
  (@log _ sample.gob sample.fullDisk (kvJournal sample.full2.1) sample.full2.2
     OpSet "bar" (sample.VByte x02)).2
    = Some (Wrap "write header" ErrDisk) /\
  @Set_ _ sample.gob sample.fullDisk sample.full2.1 sample.full2.2 "bar" (sample.VByte x02)
    = Returns None sample.full3.1 sample.full3.2 /\
  memory sample.full3.1 !! "bar" = Some (sample.VByte x02).
Proof. repeat split; vm_compute; reflexivity. Qed.

(** * Further properties of the store and the journal *)

(** ** Reading and writing the map in memory *)

Section MemoryOps.
Context {any : Type} `{Gob any} `{Disk}.

(** X1: on a ready store with the mutex free, [Set(k, v)] followed by
    [Get] answers (v, true, nil) for [k] and, for any other key, what
    [Get] answered before the [Set]; this holds whatever the append to
    the journal did. *)
Theorem X1_Get_after_Set (kv : KV any) (fs : os.files) (key key' : string) (value : any) :
  ready kv = true -> mu kv = false ->
  exists kv1 fs1,
    Set_ kv fs key value = Returns None kv1 fs1 /\
    Get kv1 fs1 key = Returns (value, true, None) kv1 fs1 /\
    (key' <> key ->
     exists r, Get kv fs key' = Returns r kv fs /\ Get kv1 fs1 key' = Returns r kv1 fs1).
Proof.
  intros Hr Hm. unfold Set_, Lock. rewrite Hr, Hm. cbn [negb].
  destruct (log _ fs OpSet key value) as [[j fs1] r] eqn:El.
  do 2 eexists. split; [reflexivity|].
  unfold Get, Lock. cbn. rewrite Hr, Hm, lookup_insert_eq. cbn.
  split; [reflexivity|]. intros Hne. rewrite lookup_insert_ne by congruence.
  destruct kv as [m f j0 mu0 r0]. cbn in *. subst mu0 r0.
  destruct (m !! key'); eexists; split; reflexivity.
Qed.

(** X2: on a ready store with the mutex free, [Get] of a key that is
    not in the map answers (nil, false, nil), [Get] of a key that is
    there answers its value with true, and in both cases the store and
    the files are left as they were. *)
Theorem X2_Get_reads_only (kv : KV any) (fs : os.files) (key : string) :
  ready kv = true -> mu kv = false ->
  (memory kv !! key = None -> Get kv fs key = Returns (nil_any, false, None) kv fs) /\
  (forall value, memory kv !! key = Some value ->
                 Get kv fs key = Returns (value, true, None) kv fs).
Proof.
  intros Hr Hm. destruct kv as [m f j mu0 r0]. cbn in *. subst mu0 r0.
  split; [intros Hk|intros value Hk]; unfold Get, Lock; cbn; rewrite Hk; reflexivity.
Qed.

(** X3: [Unset] of a key that is not in the map returns with the mutex
    still held, so every later call on the store that takes the mutex
    ([Get], [Set], [Unset], [Coalesce], [Close]) never returns. *)
Theorem X3_Unset_absent_leaves_mutex_held (kv : KV any) (fs : os.files)
    (key key' : string) (value : any) :
  ready kv = true -> mu kv = false -> memory kv !! key = None ->
  exists kv1,
    Unset kv fs key = Returns (true, None) kv1 fs /\
    mu kv1 = true /\
    Get kv1 fs key' = Blocks /\
    Set_ kv1 fs key' value = Blocks /\
    Unset kv1 fs key' = Blocks /\
    Coalesce kv1 fs = Blocks /\
    Close kv1 fs = Blocks.
Proof.
  intros Hr Hm Hk. unfold Unset at 1. unfold Lock. rewrite Hr, Hm. cbn [negb].
  cbn [memory]. rewrite Hk. eexists. split; [reflexivity|].
  unfold Get, Set_, Unset, Coalesce, Close, Lock. cbn.
  repeat split; reflexivity.
Qed.

(** X4: [Unset] of a key that is in the map, when its append succeeds,
    returns (true, nil) and has handed exactly one record to the
    journal: the bytes in the journal file followed by those in the
    writer have grown by the frame of an Unset record whose payload is
    the gob encoding of the key with a nil value. *)
Theorem X4_Unset_appends_one_record (kv kv1 : KV any) (fs fs1 : os.files)
    (key : string) (value : any) (disk : list byte) :
  ready kv = true -> mu kv = false -> memory kv !! key = Some value ->
  fs !! os.path (fh (kvJournal kv)) = Some disk ->
  Unset kv fs key = Returns (true, None) kv1 fs1 ->
  exists b disk1,
    gobEncodeTx (mkTx key nil_any) = Some b /\
    fs1 !! os.path (fh (kvJournal kv)) = Some disk1 /\
    disk1 ++ bufio.buf (bufWriter (kvJournal kv1)) =
      disk ++ bufio.buf (bufWriter (kvJournal kv)) ++ frame (OpUnset, b).
Proof.
  intros Hr Hm Hk Hd E. unfold Unset, Lock in E. rewrite Hr, Hm in E.
  cbn [negb memory] in E. rewrite Hk in E. cbn [Unlock kvJournal] in E.
  destruct (log (kvJournal kv) fs OpUnset key nil_any) as [[j fs'] [e|]] eqn:El;
    [discriminate|].
  injection E as <- <-.
  destruct (log_ok _ _ _ _ _ _ _ _ El Hd) as (b & disk1 & Hb & _ & _ & _ & Hd1 & Hs).
  exists b, disk1. cbn [withJournal kvJournal]. auto.
Qed.

End MemoryOps.

Lemma X1_witness :
  exists kv1 fs1,
    Set_ sample.kv0 sample.fs0 "c" sample.VChan = Returns None kv1 fs1 /\
    Get kv1 fs1 "c" = Returns (sample.VChan, true, None) kv1 fs1 /\
    ("d"%string <> "c"%string ->
     exists r, Get sample.kv0 sample.fs0 "d" = Returns r sample.kv0 sample.fs0 /\
               Get kv1 fs1 "d" = Returns r kv1 fs1).
Proof.
  apply (X1_Get_after_Set sample.kv0 sample.fs0 "c" "d" sample.VChan); reflexivity.
Defined.

Lemma X2_witness :
  (memory sample.kv1 !! "bar" = None ->
   Get sample.kv1 sample.fs1 "bar" = Returns (nil_any, false, None) sample.kv1 sample.fs1) /\
  (forall value, memory sample.kv1 !! "bar" = Some value ->
     Get sample.kv1 sample.fs1 "bar" = Returns (value, true, None) sample.kv1 sample.fs1).
Proof.
  apply (X2_Get_reads_only sample.kv1 sample.fs1 "bar"); vm_compute; reflexivity.
Defined.

Lemma X3_witness :
  exists kv1,
    Unset sample.kv1 sample.fs1 "missing" = Returns (true, None) kv1 sample.fs1 /\
    mu kv1 = true /\
    Get kv1 sample.fs1 "foo" = Blocks /\
    Set_ kv1 sample.fs1 "foo" sample.VNil = Blocks /\
    Unset kv1 sample.fs1 "foo" = Blocks /\
    Coalesce kv1 sample.fs1 = Blocks /\
    Close kv1 sample.fs1 = Blocks.
Proof.
  apply (X3_Unset_absent_leaves_mutex_held sample.kv1 sample.fs1 "missing" "foo" sample.VNil);
    vm_compute; reflexivity.
Defined.

Lemma X4_witness :
  exists b disk1,
    gobEncodeTx (mkTx "foo" (nil_any (any := sample.value))) = Some b /\
    (sample.after (Unset sample.kv1 sample.fs1 "foo")).2
      !! os.path (fh (kvJournal sample.kv1)) = Some disk1 /\
    disk1 ++ bufio.buf (bufWriter (kvJournal (sample.after (Unset sample.kv1 sample.fs1 "foo")).1)) =
      [] ++ bufio.buf (bufWriter (kvJournal sample.kv1)) ++ frame (OpUnset, b).
Proof.
  apply (X4_Unset_appends_one_record sample.kv1 _ sample.fs1 _ "foo" (sample.VByte x01) []);
    vm_compute; reflexivity.
Defined.

(** ** Appending: what reaches the journal *)

Section Appending.
Context {any : Type} `{Gob any} `{Disk}.

(** X5: [Set] of a value that gob refuses to encode returns nil and
    puts the value in the map, but hands nothing to the journal: the
    writer and every file are as before, so the change exists in
    memory only. *)
Theorem X5_Set_unencodable_changes_memory_only (kv : KV any) (fs : os.files)
    (key : string) (value : any) :
  ready kv = true -> mu kv = false ->
  gobEncodeTx (mkTx key value) = None ->
  exists kv1,
    Set_ kv fs key value = Returns None kv1 fs /\
    memory kv1 !! key = Some value /\
    kvJournal kv1 = kvJournal kv.
Proof.
  intros Hr Hm Henc. unfold Set_, Lock, log. rewrite Hr, Hm. cbn. rewrite Henc.
  eexists. split; [reflexivity|]. cbn. split; [apply lookup_insert_eq|reflexivity].
Qed.

(** X6: an append that returns nil has encoded the transaction into a
    payload shorter than 2^32 bytes and has added to the journal (file,
    then writer) the nine bytes of the header for this payload followed
    by the payload, and nothing else; no other file has changed and
    the journal keeps its handle and its name. *)
Theorem X6_log_appends_header_and_payload (j j' : journal) (fs fs' : os.files) (op : Op)
    (key : string) (value : any) (disk : list byte) :
  fs !! os.path (fh j) = Some disk ->
  log j fs op key value = (j', fs', None) ->
  exists b disk',
    gobEncodeTx (mkTx key value) = Some b /\
    Z.of_nat (length b) < 2 ^ 32 /\
    fs' !! os.path (fh j) = Some disk' /\
    disk' ++ bufio.buf (bufWriter j') =
      (disk ++ bufio.buf (bufWriter j))
      ++ jEncode op (Z.of_nat (length b)) (crc32.ChecksumIEEE b) ++ b /\
    fh j' = fh j /\ name j' = name j /\
    forall other, other <> os.path (fh j) -> fs' !! other = fs !! other.
Proof.
  intros Hd El.
  destruct (log_ok _ _ _ _ _ _ _ _ El Hd) as (b & disk' & Hb & Hlen & _ & _ & Hd' & Hs).
  destruct (log_fields _ _ _ _ _ _ _ _ El) as [Hfh Hname].
  exists b, disk'. repeat (split; [assumption|]).
  split; [rewrite Hs, <- app_assoc; reflexivity|].
  split; [exact Hfh|]. split; [exact Hname|].
  intros other Hne. eapply log_other; eassumption.
Qed.

End Appending.

Lemma X5_witness :
  exists kv1,
    Set_ sample.kv0 sample.fs0 "c" sample.VChan = Returns None kv1 sample.fs0 /\
    memory kv1 !! "c" = Some sample.VChan /\
    kvJournal kv1 = kvJournal sample.kv0.
Proof.
  apply (X5_Set_unencodable_changes_memory_only sample.kv0 sample.fs0 "c" sample.VChan);
    reflexivity.
Defined.

Lemma X6_witness :
  exists b disk',
    gobEncodeTx (mkTx "a" (sample.VByte x07)) = Some b /\
    Z.of_nat (length b) < 2 ^ 32 /\
    sample.fsa !! os.path (fh sample.j0) = Some disk' /\
    disk' ++ bufio.buf (bufWriter sample.ja) =
      ([] ++ bufio.buf (bufWriter sample.j0))
      ++ jEncode OpSet (Z.of_nat (length b)) (crc32.ChecksumIEEE b) ++ b /\
    fh sample.ja = fh sample.j0 /\ name sample.ja = name sample.j0 /\
    forall other, other <> os.path (fh sample.j0) -> sample.fsa !! other = sample.fs0 !! other.
Proof.
  apply (X6_log_appends_header_and_payload sample.j0 sample.ja sample.fs0 sample.fsa
           OpSet "a" (sample.VByte x07) []); vm_compute; reflexivity.
Defined.

(** ** Replay: complete journals and torn ones *)

Section ReplayEdges.
Context {any : Type} `{Gob any}.

(** X7: over a journal file that is a sequence of accepted records
    (an empty file is the sequence of none), [play] returns no error
    and the map it was given with the records applied from first to
    last. *)
Theorem X7_play_applies_records_in_order (filename : string)
    (recs : list (Op * list byte)) (m : gmap string any) (fs : os.files) :
  Forall validRecord recs ->
  fs !! filename = Some (frames recs) ->
  play filename m fs = (fold_left applyRecord recs m, None).
Proof. intros Hv E. exact (play_frames filename recs m fs Hv E). Qed.

(** X8: a journal that ends inside a record makes [play] fail, and not
    with [ErrJournalCorrupt]: after the accepted records, one to eight
    bytes where a header should be give "read header: expected 9
    bytes"; a header whose payload is cut short gives "read buffer",
    with [io.EOF] when no payload byte is left.  The map holds the
    records before the torn one. *)
Theorem X8_play_torn_record (filename : string) (recs : list (Op * list byte))
    (m : gmap string any) :
  Forall validRecord recs ->
  (forall tail fs,
      (0 < length tail < 9)%nat ->
      fs !! filename = Some (frames recs ++ tail) ->
      play filename m fs =
        (replay recs m, Some (Errorf "read header: expected 9 bytes"))) /\
  (forall op len crc payload fs,
      0 <= op < 256 -> 0 <= len < 2 ^ 32 -> 0 <= crc < 2 ^ 32 ->
      Z.of_nat (length payload) < len ->
      fs !! filename = Some (frames recs ++ jEncode op len crc ++ payload) ->
      play filename m fs =
        (replay recs m,
         Some (match payload with
               | [] => Wrap "read buffer" EOF
               | _ => Errorf "read buffer: short read"
               end))).
Proof.
  intros Hv. split.
  - intros tail fs Hlen E.
    rewrite (play_after_frames _ _ _ _ _ Hv E). cbn [playLoop]. unfold playRecord.
    destruct tail as [|x tail]; [cbn in Hlen; lia|].
    cbn [os.Read]. rewrite length_take.
    replace (Nat.min 9 (length (x :: tail)) =? 9)%nat with false
      by (symmetry; apply Nat.eqb_neq; lia).
    reflexivity.
  - intros op len crc payload fs Hop Hl Hcrc Hshort E.
    rewrite (play_after_frames _ _ _ _ _ Hv E). cbn [playLoop]. unfold playRecord.
    change 9%nat with (length (jEncode op len crc)) at 1.
    rewrite Read_app, jEncode_length. cbn [Nat.eqb negb].
    rewrite jDecode_jEncode by lia.
    destruct (Z.to_nat len) as [|n] eqn:En; [lia|].
    destruct payload as [|x payload]; [reflexivity|].
    cbn [os.Read]. rewrite length_take.
    replace (Z.of_nat (Nat.min (S n) (length (x :: payload))) =? len) with false
      by (symmetry; apply Z.eqb_neq; lia).
    reflexivity.
Qed.

End ReplayEdges.

Lemma X7_witness :
  play "test.wal" (∅ : gmap string sample.value)
    {[ "test.wal" := frames [(OpSet, sample.payload_a7)] ]}
    = (fold_left applyRecord [(OpSet, sample.payload_a7)] ∅, None).
Proof.
  apply (X7_play_applies_records_in_order "test.wal" [(OpSet, sample.payload_a7)] ∅).
  - constructor; [exact sample_valid_a7|constructor].
  - vm_compute. reflexivity.
Defined.

Lemma X8_witness :
  play "test.wal" (∅ : gmap string sample.value)
    {[ "test.wal" := frames [(OpSet, sample.payload_a7)] ++ [x01; x00; x00] ]}
    = (replay [(OpSet, sample.payload_a7)] ∅, Some (Errorf "read header: expected 9 bytes")) /\
  play "test.wal" (∅ : gmap string sample.value)
    {[ "test.wal" := frames [(OpSet, sample.payload_a7)] ++ jEncode OpSet 3 0 ++ [x01] ]}
    = (replay [(OpSet, sample.payload_a7)] ∅, Some (Errorf "read buffer: short read")).
Proof.
  destruct (X8_play_torn_record "test.wal" [(OpSet, sample.payload_a7)]
              (∅ : gmap string sample.value)) as [Hhdr Hpay].
  - constructor; [exact sample_valid_a7|constructor].
  - split.
    + apply (Hhdr [x01; x00; x00]); [cbn; lia|vm_compute; reflexivity].
    + apply (Hpay OpSet 3 0 [x01]); try (unfold OpSet; cbn; lia).
      vm_compute. reflexivity.
Defined.

(** ** Construction: what New does to the files *)

Section Construction.
Context {any : Type} `{Gob any} `{Disk}.

Lemma newJournal_err (filename : string) (m m' : gmap string any) (fs fs' : os.files)
    (e : error) :
  newJournal filename m fs = (inr e, m', fs') -> fs' = fs.
Proof.
  unfold newJournal.
  destruct (if os.Stat filename fs then play filename m fs else (m, None)) as [m1 [e1|]].
  - intros [= _ _ <-]. reflexivity.
  - cbn. discriminate.
Qed.

(** X9: a [New] that fails leaves the journal file as it found it,
    whether the snapshot could not be loaded or created or the replay
    stopped with an error: the journal is only emptied once it has been
    replayed to the end. *)
Theorem X9_failed_New_keeps_journal (dbName walName : string) (fs fs' : os.files)
    (e : error) :
  dbName <> walName ->
  New dbName walName fs = (inr e : KV any + error, fs') ->
  fs' !! walName = fs !! walName.
Proof.
  intros Hne E. unfold New in E.
  destruct (os.Stat dbName fs).
  - destruct (loadFromGob dbName fs) as [m0|e0]; [|injection E as _ <-; reflexivity].
    destruct (newJournal walName m0 fs) as [[[j|e1] m] fs2] eqn:Ej; [discriminate|].
    injection E as _ <-. apply newJournal_err in Ej as ->. reflexivity.
  - unfold createEmptyGob, encodeMapTo, os.Create in E.
    destruct (gobEncodeMap ∅) as [b|].
    + destruct (os.Write _ b _) as [[n e0] fs1] eqn:Ew.
      assert (Hw : fs1 !! walName = fs !! walName).
      { rewrite (os_Write_other _ _ _ _ _ _ walName Ew) by (cbn; congruence).
        apply lookup_insert_ne. congruence. }
      destruct e0 as [e0|]; [injection E as _ <-; exact Hw|].
      destruct (newJournal walName ∅ fs1) as [[[j|e1] m] fs2] eqn:Ej; [discriminate|].
      injection E as _ <-. apply newJournal_err in Ej as ->. exact Hw.
    + injection E as _ <-. apply lookup_insert_ne. congruence.
Qed.

(** X10: [New] over a snapshot and a journal of accepted records gives
    a store whose map is the snapshot with the records applied, and
    leaves the snapshot file as it was and the journal file empty.  So
    a second [New] over the files it left gives the map of the snapshot
    alone: what the first one replayed is in memory only until a
    [Coalesce]. *)
Theorem X10_second_New_sees_only_snapshot (dbName walName : string) (fs : os.files)
    (snap : list byte) (m0 : gmap string any) (recs : list (Op * list byte)) :
  dbName <> walName ->
  fs !! dbName = Some snap -> gobDecodeMap snap = Some m0 ->
  fs !! walName = Some (frames recs) -> Forall validRecord recs ->
  exists kv1 fs1 kv2,
    New dbName walName fs = (inl kv1, fs1) /\
    memory kv1 = replay recs m0 /\
    fs1 !! dbName = Some snap /\ fs1 !! walName = Some [] /\
    New dbName walName fs1 = (inl kv2, fs1) /\
    memory kv2 = m0.
Proof.
  intros Hne Hsnap Hdec Hwal Hv.
  rewrite (New_loaded _ _ _ _ _ Hsnap Hdec).
  rewrite (newJournal_replayed _ _ _ _ (Stat_Some _ _ _ Hwal) (play_frames _ _ m0 _ Hv Hwal)).
  assert (Hsnap1 : <[walName := []]> fs !! dbName = Some snap)
    by (rewrite lookup_insert_ne by congruence; exact Hsnap).
  assert (Hwal1 : <[walName := []]> fs !! walName = Some []) by apply lookup_insert_eq.
  do 3 eexists. split; [reflexivity|]. split; [reflexivity|].
  split; [exact Hsnap1|]. split; [exact Hwal1|].
  rewrite (New_loaded _ _ _ _ _ Hsnap1 Hdec).
  rewrite (newJournal_replayed _ _ _ _ (Stat_Some _ _ _ Hwal1) (play_empty _ _ _ Hwal1)).
  rewrite insert_insert_eq. split; reflexivity.
Qed.

(** X11: on a disk that has neither file, when the disk takes the
    write, [New] creates the snapshot file with the gob encoding of the
    empty map and an empty journal file, and returns a ready store with
    an empty map, the mutex free, and a new writer on the journal. *)
Theorem X11_New_on_fresh_disk (dbName walName : string) (fs : os.files) (b : list byte) :
  dbName <> walName ->
  fs !! dbName = None -> fs !! walName = None ->
  gobEncodeMap (∅ : gmap string any) = Some b ->
  write_fault dbName [] b = None ->
  New dbName walName fs =
    (inl (mkKV ∅ dbName (mkJournal (os.mkFile walName false) bufio.NewWriter walName)
            false true),
     <[walName := []]> (<[dbName := b]> fs)).
Proof.
  intros Hne Hdb Hwal Hb Hw. unfold New, os.Stat. rewrite Hdb.
  unfold createEmptyGob, encodeMapTo, os.Create, os.Write. rewrite Hb. cbn.
  rewrite lookup_insert_eq. cbn. rewrite Hw. cbn.
  unfold newJournal, os.Stat. rewrite !lookup_insert_ne by congruence.
  rewrite Hwal. cbn. rewrite insert_insert_eq. reflexivity.
Qed.

(** X12: [delete] removes the journal file and touches no other; it
    fails when the file is not there.  After it, [newJournal] finds
    nothing to replay: it returns the map it was given and creates the
    file anew, empty. *)
Theorem X12_delete_then_newJournal (j : journal) (fs : os.files) (m : gmap string any) :
  (fs !! name j = None ->
   delete_ j fs = (fs, Some (Wrap "delete, remove" ErrNotExist))) /\
  (forall data, fs !! name j = Some data ->
     exists fs',
       delete_ j fs = (fs', None) /\
       fs' !! name j = None /\
       (forall other, other <> name j -> fs' !! other = fs !! other) /\
       newJournal (name j) m fs' =
         (inl (mkJournal (os.mkFile (name j) false) bufio.NewWriter (name j)), m,
          <[name j := []]> fs')).
Proof.
  split.
  - intros Hn. unfold delete_, os.Remove. rewrite Hn. reflexivity.
  - intros data Hd. unfold delete_, os.Remove. rewrite Hd.
    eexists. split; [reflexivity|]. split; [apply lookup_delete_eq|].
    split; [intros other Hne; apply lookup_delete_ne; congruence|].
    unfold newJournal, os.Stat. rewrite lookup_delete_eq. reflexivity.
Qed.

End Construction.

Lemma X9_witness :
  (New (any := sample.value) "test.db" "test.wal" sample.fsBadSnapshot).2 !! "test.wal"
  = sample.fsBadSnapshot !! "test.wal".
Proof.
  apply (X9_failed_New_keeps_journal (any := sample.value) "test.db" "test.wal" _ _
           (Wrap "loading from existing gob" (Wrap "decoding map" ErrGob)));
    [discriminate|vm_compute; reflexivity].
Defined.

Lemma X10_witness :
  exists kv1 fs1 kv2,
    New "test.db" "test.wal" sample.fsJournalled = (inl kv1, fs1) /\
    memory kv1 = replay [(OpSet, sample.payload_a7)] ∅ /\
    fs1 !! "test.db" = Some [x00] /\ fs1 !! "test.wal" = Some [] /\
    New "test.db" "test.wal" fs1 = (inl kv2, fs1) /\
    memory kv2 = (∅ : gmap string sample.value).
Proof.
  apply (X10_second_New_sees_only_snapshot "test.db" "test.wal" sample.fsJournalled
           [x00] ∅ [(OpSet, sample.payload_a7)]).
  - discriminate.
  - reflexivity.
  - reflexivity.
  - vm_compute. reflexivity.
  - constructor; [exact sample_valid_a7|constructor].
Defined.

Lemma X11_witness :
  New (any := sample.value) "test.db" "test.wal" ∅ =
    (inl (mkKV ∅ "test.db"
            (mkJournal (os.mkFile "test.wal" false) bufio.NewWriter "test.wal") false true),
     <["test.wal" := []]> (<["test.db" := [x00]]> ∅)).
Proof.
  apply (X11_New_on_fresh_disk "test.db" "test.wal" ∅ [x00]);
    [discriminate|reflexivity..].
Defined.

Lemma X12_witness :
  exists fs',
    delete_ sample.j0 sample.fs0 = (fs', None) /\
    fs' !! name sample.j0 = None /\
    (forall other, other <> name sample.j0 -> fs' !! other = sample.fs0 !! other) /\
    newJournal (name sample.j0) (∅ : gmap string sample.value) fs' =
      (inl (mkJournal (os.mkFile (name sample.j0) false) bufio.NewWriter (name sample.j0)), ∅,
       <[name sample.j0 := []]> fs').
Proof.
  destruct (X12_delete_then_newJournal sample.j0 sample.fs0
              (∅ : gmap string sample.value)) as [_ Hdel].
  apply (Hdel []). reflexivity.
Defined.

(** ** Memory and disk in agreement *)

Section Durability.
Context {any : Type} `{GobRoundTrip any} `{Disk}.

(** X13: a [Coalesce] that returned nil leaves the store idle, with
    the same map, and memory and disk in agreement: the snapshot file
    holds the gob encoding of the map in memory and decodes to it, the
    journal file is empty and the journal has a new, empty writer. *)
Theorem X13_Coalesce_makes_memory_durable (kv kv' : KV any) (fs fs' : os.files) :
  idle kv ->
  Coalesce kv fs = Returns None kv' fs' ->
  idle kv' /\ memory kv' = memory kv /\
  (exists snap, fs' !! fileName kv' = Some snap /\
                gobEncodeMap (memory kv') = Some snap /\
                gobDecodeMap snap = Some (memory kv')) /\
  fs' !! name (kvJournal kv') = Some [] /\
  bufWriter (kvJournal kv') = bufio.NewWriter /\
  durable kv' fs'.
Proof.
  intros (Hr & Hm & Hp & Hne) E. unfold Coalesce, Lock in E. rewrite Hr, Hm in E.
  cbn [negb] in E.
  destruct (dump _ fs) as [fs1 [e|]] eqn:Ed; [discriminate|].
  cbn [kvJournal] in E.
  destruct (truncate (kvJournal kv) fs1) as [[j fs2] [e|]] eqn:Et; [discriminate|].
  injection E as <- <-.
  apply dump_ok in Ed as (b & Hb & Hsnap & _). cbn [memory fileName] in *.
  apply truncate_ok in Et as (-> & Hwal & Hother).
  assert (Hsnap2 : fs2 !! fileName kv = Some b)
    by (rewrite Hother by congruence; exact Hsnap).
  split; [repeat split; cbn; assumption|]. split; [reflexivity|]. cbn.
  split; [exists b; auto using gob_map_roundtrip|].
  split; [exact Hwal|]. split; [reflexivity|].
  exists b, (memory kv), []. cbn.
  split; [exact Hsnap2|].
  split; [apply gob_map_roundtrip, Hb|]. split; [exact Hwal|].
  intros _. exists []. repeat split. constructor.
Qed.

(** X14: [Set] of a value that gob encodes into fewer than 2^32 bytes
    keeps memory and disk in agreement whenever it leaves no error
    pending in the writer of the journal: the store is idle, its map
    is the old one with the value under the key, the snapshot still
    decodes, and the journal (the file, then the writer) is a sequence
    of accepted records whose replay over the map of the snapshot
    gives the new map in memory. *)
Theorem X14_Set_keeps_memory_durable (kv kv1 : KV any) (fs fs1 : os.files)
    (key : string) (value : any) (b : list byte) (r : option error) :
  idle kv -> durable kv fs ->
  gobEncodeTx (mkTx key value) = Some b -> Z.of_nat (length b) < 2 ^ 32 ->
  Set_ kv fs key value = Returns r kv1 fs1 ->
  bufio.err (bufWriter (kvJournal kv1)) = None ->
  idle kv1 /\ memory kv1 = <[key := value]> (memory kv) /\
  exists snap m0 disk recs,
    fs1 !! fileName kv1 = Some snap /\ gobDecodeMap snap = Some m0 /\
    fs1 !! name (kvJournal kv1) = Some disk /\
    disk ++ bufio.buf (bufWriter (kvJournal kv1)) = frames recs /\
    Forall validRecord recs /\
    replay recs m0 = memory kv1.
Proof.
  intros (Hr & Hm & Hp & Hne) (snap & m0 & disk & Hsnap & Hdec & Hdisk & Hinv) Henc Hlen E He.
  unfold Set_, Lock in E. rewrite Hr, Hm in E. cbn [negb] in E.
  destruct (log _ fs OpSet key value) as [[j1 fs1'] r1] eqn:El.
  injection E as _ <- <-. cbn [Unlock withMemory kvJournal] in El.
  cbn [withJournal kvJournal] in He.
  destruct (log_fields _ _ _ _ _ _ _ _ El) as [Hfh Hname].
  split; [unfold idle; cbn; rewrite Hfh, Hname; auto|].
  split; [reflexivity|].
  rewrite <- Hp in Hdisk.
  pose proof (log_no_pending_error _ _ _ _ _ _ _ _ _ _ Henc Hlen El Hdisk He) as ->.
  destruct (log_ok _ _ _ _ _ _ _ _ El Hdisk) as (b' & disk1 & Hb' & _ & He0 & _ & Hd1 & Hs).
  rewrite Henc in Hb'. injection Hb' as <-.
  destruct (Hinv He0) as (recs & Hrecs & Hvalid & Hmem).
  exists snap, m0, disk1, (recs ++ [(OpSet, b)]).
  cbn [withJournal Unlock withMemory fileName kvJournal memory].
  split; [rewrite (log_other _ _ _ _ _ _ _ _ (fileName kv) El) by congruence; exact Hsnap|].
  split; [exact Hdec|].
  split; [rewrite Hname, <- Hp; exact Hd1|].
  split; [|split].
  - rewrite Hs, app_assoc, Hrecs, frames_app. unfold frames at 3.
    cbn [map concat]. rewrite app_nil_r. reflexivity.
  - apply Forall_app. split; [exact Hvalid|]. constructor; [|constructor].
    eapply validRecord_encoded; [unfold OpSet; lia|exact Henc|exact Hlen].
  - rewrite replay_app. unfold replay at 1. cbn [fold_left].
    rewrite (applyRecord_Set _ _ _ _ Henc), Hmem. reflexivity.
Qed.

(** X15: when memory and disk agree, a [Flush] that returned nil
    leaves files over which [New] gives a store with the whole map of
    the store that was flushed. *)
Theorem X15_Flush_then_New_restores_map (kv kv1 : KV any) (fs fs1 : os.files) :
  idle kv -> durable kv fs ->
  Flush kv fs = Returns None kv1 fs1 ->
  exists kv2 fs2,
    New (fileName kv) (name (kvJournal kv)) fs1 = (inl kv2, fs2) /\
    memory kv2 = memory kv.
Proof.
  intros (Hr & Hm & Hp & Hne) (snap & m0 & disk & Hsnap & Hdec & Hdisk & Hinv) E.
  unfold Flush in E. rewrite Hr in E. cbn [negb] in E.
  destruct (bufio.Flush _ _ fs) as [[b fs1'] [e|]] eqn:Ef; [discriminate|].
  unfold Lock in E. cbn in E. rewrite Hm in E. injection E as _ <-.
  destruct (Hinv (Flush_ok_err _ _ _ _ _ Ef)) as (recs & Hrecs & Hvalid & Hmem).
  rewrite <- Hp in Hdisk.
  destruct (Flush_ok _ _ _ _ _ _ Ef Hdisk) as (_ & _ & Hwal).
  rewrite Hrecs, Hp in Hwal.
  assert (Hsnap' : fs1' !! fileName kv = Some snap).
  { rewrite (Flush_other _ _ _ _ _ _ (fileName kv) Ef) by congruence. exact Hsnap. }
  rewrite (New_loaded _ _ _ _ _ Hsnap' Hdec).
  rewrite (newJournal_replayed _ _ _ _ (Stat_Some _ _ _ Hwal)
             (play_frames _ _ m0 _ Hvalid Hwal)).
  do 2 eexists. split; [reflexivity|]. exact Hmem.
Qed.

(** X16: when memory and disk agree, a [Close] that returned nil has
    written the whole journal to its file, left the map as it was and
    cleared the ready flag; [New] over the files it left gives a store
    with the same map. *)
Theorem X16_Close_then_New_restores_map (kv kv1 : KV any) (fs fs1 : os.files) :
  idle kv -> durable kv fs ->
  Close kv fs = Returns None kv1 fs1 ->
  ready kv1 = false /\ memory kv1 = memory kv /\
  exists kv2 fs2,
    New (fileName kv) (name (kvJournal kv)) fs1 = (inl kv2, fs2) /\
    memory kv2 = memory kv.
Proof.
  intros (Hr & Hm & Hp & Hne) (snap & m0 & disk & Hsnap & Hdec & Hdisk & Hinv) E.
  unfold Close, Lock in E. rewrite Hr, Hm in E. cbn [negb kvJournal] in E.
  unfold close, flush in E.
  destruct (bufio.Flush _ _ fs) as [[b fs1'] [e|]] eqn:Ef; [discriminate|].
  cbn in E. injection E as <- <-. split; [reflexivity|]. split; [reflexivity|].
  destruct (Hinv (Flush_ok_err _ _ _ _ _ Ef)) as (recs & Hrecs & Hvalid & Hmem).
  rewrite <- Hp in Hdisk.
  destruct (Flush_ok _ _ _ _ _ _ Ef Hdisk) as (_ & _ & Hwal).
  rewrite Hrecs, Hp in Hwal.
  assert (Hsnap' : fs1' !! fileName kv = Some snap).
  { rewrite (Flush_other _ _ _ _ _ _ (fileName kv) Ef) by congruence. exact Hsnap. }
  rewrite (New_loaded _ _ _ _ _ Hsnap' Hdec).
  rewrite (newJournal_replayed _ _ _ _ (Stat_Some _ _ _ Hwal)
             (play_frames _ _ m0 _ Hvalid Hwal)).
  do 2 eexists. split; [reflexivity|]. exact Hmem.
Qed.

End Durability.

Lemma sample_idle_kvc : idle sample.kvc.
Proof.
  unfold idle. split; [vm_compute; reflexivity|]. split; [vm_compute; reflexivity|].
  split; [vm_compute; reflexivity|]. vm_compute. discriminate.
Qed.

Lemma sample_durable_kvc : durable sample.kvc sample.fsc.
Proof.
  exists [x01; x01; x01; x66; x6f; x6f], {[ "foo" := sample.VByte x01 ]}, [].
  split; [vm_compute; reflexivity|]. split; [reflexivity|].
  split; [vm_compute; reflexivity|]. intros _. exists [].
  split; [reflexivity|]. split; [constructor|]. vm_compute. reflexivity.
Qed.

Lemma X13_witness :
  idle sample.kvc /\ memory sample.kvc = memory sample.kv1 /\
  (exists snap, sample.fsc !! fileName sample.kvc = Some snap /\
                gobEncodeMap (memory sample.kvc) = Some snap /\
                gobDecodeMap snap = Some (memory sample.kvc)) /\
  sample.fsc !! name (kvJournal sample.kvc) = Some [] /\
  bufWriter (kvJournal sample.kvc) = bufio.NewWriter /\
  durable sample.kvc sample.fsc.
Proof.
  apply (X13_Coalesce_makes_memory_durable sample.kv1 sample.kvc sample.fs1 sample.fsc).
  - exact sample_idle_kv1.
  - vm_compute. reflexivity.
Defined.

Lemma X14_witness :
  idle (sample.after (Set_ sample.kvc sample.fsc "bar" (sample.VByte x02))).1 /\
  memory (sample.after (Set_ sample.kvc sample.fsc "bar" (sample.VByte x02))).1
    = <["bar" := sample.VByte x02]> (memory sample.kvc) /\
  exists snap m0 disk recs,
    (sample.after (Set_ sample.kvc sample.fsc "bar" (sample.VByte x02))).2
      !! fileName (sample.after (Set_ sample.kvc sample.fsc "bar" (sample.VByte x02))).1
      = Some snap /\
    gobDecodeMap snap = Some m0 /\
    (sample.after (Set_ sample.kvc sample.fsc "bar" (sample.VByte x02))).2
      !! name (kvJournal (sample.after (Set_ sample.kvc sample.fsc "bar" (sample.VByte x02))).1)
      = Some disk /\
    disk ++ bufio.buf (bufWriter (kvJournal
               (sample.after (Set_ sample.kvc sample.fsc "bar" (sample.VByte x02))).1))
      = frames recs /\
    Forall validRecord recs /\
    replay recs m0 = memory (sample.after (Set_ sample.kvc sample.fsc "bar" (sample.VByte x02))).1.
Proof.
  apply (X14_Set_keeps_memory_durable sample.kvc _ sample.fsc _ "bar" (sample.VByte x02)
           [x01; x02; x62; x61; x72] None).
  - exact sample_idle_kvc.
  - exact sample_durable_kvc.
  - reflexivity.
  - vm_compute. reflexivity.
  - vm_compute. reflexivity.
  - vm_compute. reflexivity.
Defined.

Lemma X15_witness :
  exists kv2 fs2,
    New (fileName sample.kvc) (name (kvJournal sample.kvc))
        (sample.after (Flush sample.kvc sample.fsc)).2 = (inl kv2, fs2) /\
    memory kv2 = memory sample.kvc.
Proof.
  apply (X15_Flush_then_New_restores_map sample.kvc
           (sample.after (Flush sample.kvc sample.fsc)).1 sample.fsc).
  - exact sample_idle_kvc.
  - exact sample_durable_kvc.
  - vm_compute. reflexivity.
Defined.

Lemma X16_witness :
  ready (sample.after (Close sample.kvc sample.fsc)).1 = false /\
  memory (sample.after (Close sample.kvc sample.fsc)).1 = memory sample.kvc /\
  exists kv2 fs2,
    New (fileName sample.kvc) (name (kvJournal sample.kvc))
        (sample.after (Close sample.kvc sample.fsc)).2 = (inl kv2, fs2) /\
    memory kv2 = memory sample.kvc.
Proof.
  apply (X16_Close_then_New_restores_map sample.kvc _ sample.fsc _).
  - exact sample_idle_kvc.
  - exact sample_durable_kvc.
  - vm_compute. reflexivity.
Defined.

(** ** Unset across a restart; Close and Flush *)

Section UnsetRestart.
Context {any : Type} `{GobRoundTrip any} `{Disk}.

Lemma applyRecord_Unset (m : gmap string any) (key : string) (value : any) (b : list byte) :
  gobEncodeTx (mkTx key value) = Some b ->
  applyRecord m (OpUnset, b) = delete key m.
Proof.
  intros Hb. unfold applyRecord. cbn [fst snd].
  rewrite (gob_tx_roundtrip _ _ Hb). reflexivity.
Qed.

(** X17: on an idle store whose files a restart can load, [Unset] of
    a key that is in the map followed by a [Flush], both returning nil,
    leaves the key in the map of the running store but leaves files
    over which [New] gives a store without the key: the record is
    replayed as a deletion that the running store never made. *)
Theorem X17_Unset_deletes_only_after_restart (kv kv1 kv2 : KV any) (fs fs1 fs2 : os.files)
    (key : string) (value : any) :
  idle kv -> restartable kv fs ->
  memory kv !! key = Some value ->
  Unset kv fs key = Returns (true, None) kv1 fs1 ->
  Flush kv1 fs1 = Returns None kv2 fs2 ->
  memory kv2 !! key = Some value /\
  exists kv3 fs3,
    New (fileName kv) (name (kvJournal kv)) fs2 = (inl kv3, fs3) /\
    memory kv3 !! key = None /\
    Get kv3 fs3 key = Returns (nil_any, false, None) kv3 fs3.
Proof.
  intros (Hr & Hm & Hp & Hne) ((snap & m0 & Hsnap & Hdec) & disk & Hdisk & Hinv)
    Hk EUnset EFlush.
  unfold Unset, Lock in EUnset. rewrite Hr, Hm in EUnset. cbn [negb memory] in EUnset.
  rewrite Hk in EUnset. cbn [Unlock kvJournal] in EUnset.
  destruct (log (kvJournal kv) fs OpUnset key nil_any) as [[j1 fs1'] [e|]] eqn:El;
    [discriminate|].
  injection EUnset as <- <-.
  unfold Flush in EFlush. cbn [withJournal Unlock ready kvJournal negb] in EFlush.
  destruct (bufio.Flush (fh j1) (bufWriter j1) fs1') as [[b2 fs2'] e] eqn:Ef.
  destruct e as [e|]; [discriminate|].
  unfold Lock in EFlush. cbn in EFlush. injection EFlush as <- <-.
  split; [exact Hk|].
  destruct (log_fields _ _ _ _ _ _ _ _ El) as [Hfh Hname].
  rewrite <- Hp in Hdisk.
  destruct (log_ok _ _ _ _ _ _ _ _ El Hdisk) as (b & disk1 & Hb & Hlen & He & _ & Hd1 & Hs).
  destruct (Hinv He) as (recs & Hrecs & Hvalid).
  rewrite Hfh in Ef.
  destruct (Flush_ok _ _ _ _ _ _ Ef Hd1) as (_ & _ & Hwal).
  rewrite Hs, app_assoc, Hrecs in Hwal. rewrite Hp in Hwal.
  assert (Hwal' : fs2' !! name (kvJournal kv) = Some (frames (recs ++ [(OpUnset, b)]))).
  { rewrite frames_app. unfold frames at 2. cbn [map concat]. rewrite app_nil_r.
    exact Hwal. }
  assert (Hvalid' : Forall validRecord (recs ++ [(OpUnset, b)])).
  { apply Forall_app. split; [exact Hvalid|]. constructor; [|constructor].
    eapply validRecord_encoded; [unfold OpUnset; lia|exact Hb|exact Hlen]. }
  assert (Hsnap' : fs2' !! fileName kv = Some snap).
  { rewrite (Flush_other _ _ _ _ _ _ (fileName kv) Ef) by congruence.
    rewrite (log_other _ _ _ _ _ _ _ _ (fileName kv) El) by congruence.
    exact Hsnap. }
  rewrite (New_loaded _ _ _ _ _ Hsnap' Hdec).
  rewrite (newJournal_replayed _ _ _ _ (Stat_Some _ _ _ Hwal')
             (play_frames _ _ m0 _ Hvalid' Hwal')).
  do 2 eexists. split; [reflexivity|]. cbn [memory].
  assert (Hgone : replay (recs ++ [(OpUnset, b)]) m0 !! key = None).
  { rewrite replay_app. unfold replay at 1. cbn [fold_left].
    rewrite (applyRecord_Unset _ _ _ _ Hb). apply lookup_delete_eq. }
  split; [exact Hgone|]. unfold Get, Lock. cbn. rewrite Hgone. reflexivity.
Qed.

End UnsetRestart.

Section CloseFlush.
Context {any : Type} `{Gob any} `{Disk}.

(** X18: after a [Close] that returned nil every call on the store
    returns [ErrNotReady] at once, without taking the mutex and without
    touching the store or the files; [Get] and [Unset] then answer
    false. *)
Theorem X18_closed_store_rejects_calls (kv kv1 : KV any) (fs fs1 fs' : os.files)
    (key : string) (value : any) :
  Close kv fs = Returns None kv1 fs1 ->
  Get kv1 fs' key = Returns (nil_any, false, Some ErrNotReady) kv1 fs' /\
  Set_ kv1 fs' key value = Returns (Some ErrNotReady) kv1 fs' /\
  Unset kv1 fs' key = Returns (false, Some ErrNotReady) kv1 fs' /\
  Flush kv1 fs' = Returns (Some ErrNotReady) kv1 fs' /\
  Coalesce kv1 fs' = Returns (Some ErrNotReady) kv1 fs' /\
  Close kv1 fs' = Returns (Some ErrNotReady) kv1 fs'.
Proof.
  intros E.
  assert (Hr : ready kv1 = false).
  { unfold Close in E. destruct (ready kv) eqn:Hr0; [|discriminate]. cbn [negb] in E.
    destruct (Lock kv) as [kv0|]; [|discriminate].
    destruct (close (kvJournal kv0) fs) as [[j fs0] [e|]]; [discriminate|].
    injection E as <- _. reflexivity. }
  unfold Get, Set_, Unset, Flush, Coalesce, Close. rewrite Hr. cbn [negb].
  repeat split; reflexivity.
Qed.

(** X19: a [Flush] that returned nil on a ready store has moved every
    byte of the writer to the end of the journal file, left the writer
    empty and the map, the snapshot and every other file as they were;
    a second [Flush] changes nothing. *)
Theorem X19_Flush_empties_writer (kv kv1 : KV any) (fs fs1 : os.files) (disk : list byte) :
  ready kv = true -> mu kv = false ->
  fs !! os.path (fh (kvJournal kv)) = Some disk ->
  Flush kv fs = Returns None kv1 fs1 ->
  fs1 !! os.path (fh (kvJournal kv)) = Some (disk ++ bufio.buf (bufWriter (kvJournal kv))) /\
  bufio.buf (bufWriter (kvJournal kv1)) = [] /\
  memory kv1 = memory kv /\
  (forall other, other <> os.path (fh (kvJournal kv)) -> fs1 !! other = fs !! other) /\
  Flush kv1 fs1 = Returns None kv1 fs1.
Proof.
  intros Hr Hm Hd E. unfold Flush in E. rewrite Hr in E. cbn [negb] in E.
  destruct (bufio.Flush _ _ fs) as [[b fs1'] [e|]] eqn:Ef; [discriminate|].
  unfold Lock in E. cbn in E. rewrite Hm in E. injection E as <- <-.
  destruct (Flush_ok _ _ _ _ _ _ Ef Hd) as (_ & -> & Hwal).
  split; [exact Hwal|]. split; [reflexivity|]. split; [reflexivity|].
  split; [intros other Hne; eapply Flush_other; eassumption|].
  unfold Flush, Lock. cbn. rewrite Hr. reflexivity.
Qed.

End CloseFlush.

(** ** The frame codec, the other way round *)

Lemma byte_testbit_high (b : byte) (i : Z) : 8 <= i -> Z.testbit (byte_to_Z b) i = false.
Proof. intros Hi. apply (testbit_above _ 8); [apply byte_to_Z_range|lia]. Qed.

Ltac clear_foreign_bits :=
  repeat match goal with
    | |- context [Z.testbit (byte_to_Z ?b) ?e] =>
        first [ rewrite (Z.testbit_neg_r (byte_to_Z b) e) by lia
              | rewrite (byte_testbit_high b e) by lia ]
    end;
  rewrite ?Bool.orb_false_r, ?Bool.orb_false_l, ?Bool.andb_false_r, ?Bool.andb_true_l.

Lemma Uint32_byte (b0 b1 b2 b3 : byte) (k : Z) (b : byte) :
  (k = 24 /\ b = b0) \/ (k = 16 /\ b = b1) \/ (k = 8 /\ b = b2) \/ (k = 0 /\ b = b3) ->
  byte_of_Z (Z.shiftr (binary.BigEndian_Uint32 b0 b1 b2 b3) k) = b.
Proof.
  intros Hk. apply byte_to_Z_inj. rewrite byte_to_of_Z.
  change 256 with (2 ^ 8). apply Z.bits_inj'. intros i Hi.
  rewrite Z.testbit_mod_pow2 by lia. unfold binary.BigEndian_Uint32.
  assert (Hk0 : 0 <= k) by lia.
  rewrite Z.shiftr_spec, !Z.lor_spec, !Z.shiftl_spec by lia.
  destruct (Z.ltb_spec i 8) as [Hlt|Hge].
  - cbn [andb].
    destruct Hk as [[-> ->]|[[-> ->]|[[-> ->]|[-> ->]]]].
    + replace (i + 24 - 24) with i by lia. clear_foreign_bits. reflexivity.
    + replace (i + 16 - 16) with i by lia. clear_foreign_bits. reflexivity.
    + replace (i + 8 - 8) with i by lia. clear_foreign_bits. reflexivity.
    + replace (i + 0) with i by lia. clear_foreign_bits. reflexivity.
  - cbn [andb]. symmetry. apply byte_testbit_high. lia.
Qed.

Lemma PutUint32_Uint32 (b0 b1 b2 b3 : byte) :
  binary.BigEndian_PutUint32 (binary.BigEndian_Uint32 b0 b1 b2 b3) = [b0; b1; b2; b3].
Proof.
  unfold binary.BigEndian_PutUint32.
  rewrite (Uint32_byte b0 b1 b2 b3 24 b0), (Uint32_byte b0 b1 b2 b3 16 b1),
    (Uint32_byte b0 b1 b2 b3 8 b2) by tauto.
  rewrite <- (Z.shiftr_0_r (binary.BigEndian_Uint32 b0 b1 b2 b3)) at 1.
  rewrite (Uint32_byte b0 b1 b2 b3 0 b3) by tauto. reflexivity.
Qed.

(** X20: [jDecode] loses nothing: whatever nine bytes it is given,
    encoding the tag, length and checksum it returns gives back the
    same nine bytes. *)
Theorem X20_encode_decode_roundtrip (buf : list byte) :
  length buf = 9%nat ->
  exists op len crc, jDecode buf = inl (op, len, crc) /\ jEncode op len crc = buf.
Proof.
  intros Hlen.
  do 10 (destruct buf as [|? buf]; try discriminate Hlen).
  do 3 eexists. split; [reflexivity|].
  unfold jEncode. rewrite !PutUint32_Uint32, byte_of_to_Z. reflexivity.
Qed.

Lemma X20_witness :
  exists op len crc,
    jDecode [xff; x00; x01; x02; x03; xfc; xfd; xfe; xff] = inl (op, len, crc) /\
    jEncode op len crc = [xff; x00; x01; x02; x03; xfc; xfd; xfe; xff].
Proof. apply X20_encode_decode_roundtrip. reflexivity. Defined.

Lemma sample_restartable_kv1 : restartable sample.kv1 sample.fs1.
Proof.
  split.
  - exists [x00], ∅. split; [vm_compute; reflexivity|reflexivity].
  - exists []. split; [vm_compute; reflexivity|]. intros _.
    exists [(OpSet, [x01; x01; x66; x6f; x6f])]. split; [vm_compute; reflexivity|].
    constructor; [|constructor].
    split; [unfold OpSet; cbn; lia|]. split; [vm_compute; reflexivity|].
    eexists. reflexivity.
Qed.

Lemma X17_witness :
  memory (sample.after (Flush (sample.after (Unset sample.kv1 sample.fs1 "foo")).1
                              (sample.after (Unset sample.kv1 sample.fs1 "foo")).2)).1
    !! "foo" = Some (sample.VByte x01) /\
  exists kv3 fs3,
    New (fileName sample.kv1) (name (kvJournal sample.kv1))
        (sample.after (Flush (sample.after (Unset sample.kv1 sample.fs1 "foo")).1
                             (sample.after (Unset sample.kv1 sample.fs1 "foo")).2)).2
      = (inl kv3, fs3) /\
    memory kv3 !! "foo" = None /\
    Get kv3 fs3 "foo" = Returns (nil_any, false, None) kv3 fs3.
Proof.
  apply (X17_Unset_deletes_only_after_restart sample.kv1
           (sample.after (Unset sample.kv1 sample.fs1 "foo")).1 _
           sample.fs1 (sample.after (Unset sample.kv1 sample.fs1 "foo")).2 _
           "foo" (sample.VByte x01)).
  - exact sample_idle_kv1.
  - exact sample_restartable_kv1.
  - vm_compute. reflexivity.
  - vm_compute. reflexivity.
  - vm_compute. reflexivity.
Defined.

Lemma X18_witness :
  Get (sample.after (Close sample.kvc sample.fsc)).1 sample.fs0 "foo"
    = Returns (nil_any, false, Some ErrNotReady)
        (sample.after (Close sample.kvc sample.fsc)).1 sample.fs0 /\
  Set_ (sample.after (Close sample.kvc sample.fsc)).1 sample.fs0 "foo" sample.VNil
    = Returns (Some ErrNotReady) (sample.after (Close sample.kvc sample.fsc)).1 sample.fs0 /\
  Unset (sample.after (Close sample.kvc sample.fsc)).1 sample.fs0 "foo"
    = Returns (false, Some ErrNotReady)
        (sample.after (Close sample.kvc sample.fsc)).1 sample.fs0 /\
  Flush (sample.after (Close sample.kvc sample.fsc)).1 sample.fs0
    = Returns (Some ErrNotReady) (sample.after (Close sample.kvc sample.fsc)).1 sample.fs0 /\
  Coalesce (sample.after (Close sample.kvc sample.fsc)).1 sample.fs0
    = Returns (Some ErrNotReady) (sample.after (Close sample.kvc sample.fsc)).1 sample.fs0 /\
  Close (sample.after (Close sample.kvc sample.fsc)).1 sample.fs0
    = Returns (Some ErrNotReady) (sample.after (Close sample.kvc sample.fsc)).1 sample.fs0.
Proof.
  apply (X18_closed_store_rejects_calls sample.kvc _ sample.fsc
           (sample.after (Close sample.kvc sample.fsc)).2 sample.fs0 "foo" sample.VNil).
  vm_compute. reflexivity.
Defined.

Lemma X19_witness :
  sample.fs2 !! os.path (fh (kvJournal sample.kv1))
    = Some ([] ++ bufio.buf (bufWriter (kvJournal sample.kv1))) /\
  bufio.buf (bufWriter (kvJournal sample.kv2)) = [] /\
  memory sample.kv2 = memory sample.kv1 /\
  (forall other, other <> os.path (fh (kvJournal sample.kv1)) ->
     sample.fs2 !! other = sample.fs1 !! other) /\
  Flush sample.kv2 sample.fs2 = Returns None sample.kv2 sample.fs2.
Proof.
  apply (X19_Flush_empties_writer sample.kv1 sample.kv2 sample.fs1 sample.fs2 []);
    vm_compute; reflexivity.
Defined.

(** ** The mutex and the map across all the calls *)

Section Discipline.
Context {any : Type} `{Gob any} `{Disk}.

Lemma dump_other (kv : KV any) (fs fs' : os.files) (e : option error) (other : string) :
  dump kv fs = (fs', e) -> other <> fileName kv -> fs' !! other = fs !! other.
Proof.
  unfold dump, encodeMapTo, os.Create. intros E Hne.
  destruct (ready kv); cbn [negb] in E; [|injection E as <- _; reflexivity].
  destruct (gobEncodeMap (memory kv)) as [b|].
  - destruct (os.Write _ b _) as [[n e0] fs1] eqn:Ew.
    assert (Hw : fs1 !! other = fs !! other).
    { rewrite (os_Write_other _ _ _ _ _ _ other Ew) by (cbn; congruence).
      apply lookup_insert_ne. congruence. }
    destruct e0; injection E as <- _; exact Hw.
  - injection E as <- _. apply lookup_insert_ne. congruence.
Qed.

(** X21: when [Coalesce] fails in the dump of the map (gob refuses a
    value, or the disk refuses the write), the journal is not
    truncated: its file and its writer are as before, the map is
    unchanged, the store stays ready and the mutex is released. *)
Theorem X21_failed_dump_keeps_journal (kv kv1 : KV any) (fs fs1 : os.files) (e : error) :
  ready kv = true -> mu kv = false -> fileName kv <> name (kvJournal kv) ->
  Coalesce kv fs = Returns (Some (Wrap "dumping memory" e)) kv1 fs1 ->
  kvJournal kv1 = kvJournal kv /\
  fs1 !! name (kvJournal kv) = fs !! name (kvJournal kv) /\
  memory kv1 = memory kv /\ ready kv1 = true /\ mu kv1 = false.
Proof.
  intros Hr Hm Hne E. unfold Coalesce, Lock in E. rewrite Hr, Hm in E. cbn [negb] in E.
  destruct (dump _ fs) as [fs' [e0|]] eqn:Ed.
  - injection E as _ <- <-. cbn.
    split; [reflexivity|]. split; [|auto].
    apply (dump_other _ _ _ _ (name (kvJournal kv))) in Ed; [exact Ed|cbn; congruence].
  - cbn [kvJournal] in E.
    destruct (truncate (kvJournal kv) fs') as [[j fs2] [e1|]]; discriminate.
Qed.

(** X22: on a ready store with the mutex free, [Get], [Set], [Flush],
    [Coalesce], [Close] and [Unset] of a key that is in the map all
    return, whatever the journal and the disk do, and return with the
    mutex released. *)
Theorem X22_calls_return_with_mutex_released (kv : KV any) (fs : os.files)
    (key : string) (value : any) :
  ready kv = true -> mu kv = false ->
  (exists r kv1 fs1, Get kv fs key = Returns r kv1 fs1 /\ mu kv1 = false) /\
  (exists r kv1 fs1, Set_ kv fs key value = Returns r kv1 fs1 /\ mu kv1 = false) /\
  (exists r kv1 fs1, Flush kv fs = Returns r kv1 fs1 /\ mu kv1 = false) /\
  (exists r kv1 fs1, Coalesce kv fs = Returns r kv1 fs1 /\ mu kv1 = false) /\
  (exists r kv1 fs1, Close kv fs = Returns r kv1 fs1 /\ mu kv1 = false) /\
  (is_Some (memory kv !! key) ->
   exists r kv1 fs1, Unset kv fs key = Returns r kv1 fs1 /\ mu kv1 = false).
Proof.
  intros Hr Hm. destruct kv as [m f j mu0 r0]. cbn in Hr, Hm. subst mu0 r0.
  repeat split.
  - unfold Get, Lock. cbn. destruct (m !! key); do 3 eexists; split; reflexivity.
  - unfold Set_, Lock. cbn [ready mu negb memory Unlock withMemory kvJournal].
    destruct (log _ fs OpSet key value) as [[j1 fs1] r].
    do 3 eexists. split; reflexivity.
  - unfold Flush, Lock. cbn [ready mu negb kvJournal].
    destruct (bufio.Flush _ _ fs) as [[b fs1] [e|]]; do 3 eexists; split; reflexivity.
  - unfold Coalesce, Lock. cbn [ready mu negb].
    destruct (dump _ fs) as [fs1 [e|]]; [do 3 eexists; split; reflexivity|].
    destruct (truncate _ fs1) as [[j1 fs2] [e|]]; do 3 eexists; split; reflexivity.
  - unfold Close, Lock. cbn [ready mu negb].
    destruct (close _ fs) as [[j1 fs1] [e|]]; do 3 eexists; split; reflexivity.
  - intros [v Hk]. cbn [memory] in Hk. unfold Unset, Lock.
    cbn [ready mu negb memory]. rewrite Hk.
    destruct (log _ fs OpUnset key nil_any) as [[j1 fs1] [e|]];
      do 3 eexists; split; reflexivity.
Qed.

(** X23: of all the calls only [Set] changes the map in memory: after
    [Get], [Unset] (of a key present or absent), [Flush], [Coalesce]
    and [Close], whether they succeed or fail, the map is the one the
    store had before. *)
Theorem X23_only_Set_changes_the_map (kv : KV any) (fs : os.files) (key : string) :
  (forall r kv1 fs1, Get kv fs key = Returns r kv1 fs1 -> memory kv1 = memory kv) /\
  (forall r kv1 fs1, Unset kv fs key = Returns r kv1 fs1 -> memory kv1 = memory kv) /\
  (forall r kv1 fs1, Flush kv fs = Returns r kv1 fs1 -> memory kv1 = memory kv) /\
  (forall r kv1 fs1, Coalesce kv fs = Returns r kv1 fs1 -> memory kv1 = memory kv) /\
  (forall r kv1 fs1, Close kv fs = Returns r kv1 fs1 -> memory kv1 = memory kv).
Proof.
  destruct kv as [m f j mu0 r0]. repeat split; intros r kv1 fs1 E.
  - unfold Get, Lock in E. cbn in E.
    destruct r0; cbn in E; [|injection E as _ <- _; reflexivity].
    destruct mu0; [discriminate|]. cbn [memory] in E.
    destruct (m !! key); injection E as _ <- _; reflexivity.
  - unfold Unset, Lock in E. cbn [ready mu negb memory] in E.
    destruct r0; cbn [negb] in E; [|injection E as _ <- _; reflexivity].
    destruct mu0; [discriminate|]. cbn [memory] in E.
    destruct (m !! key); [|injection E as _ <- _; reflexivity].
    destruct (log _ fs OpUnset key nil_any) as [[j1 fs2] [e|]];
      injection E as _ <- _; reflexivity.
  - unfold Flush, Lock in E. cbn [ready mu negb kvJournal] in E.
    destruct r0; cbn [negb] in E; [|injection E as _ <- _; reflexivity].
    destruct (bufio.Flush _ _ fs) as [[b fs2] [e|]]; [injection E as _ <- _; reflexivity|].
    cbn in E. destruct mu0; [discriminate|]. injection E as _ <- _. reflexivity.
  - unfold Coalesce, Lock in E. cbn [ready mu negb] in E.
    destruct r0; cbn [negb] in E; [|injection E as _ <- _; reflexivity].
    destruct mu0; [discriminate|].
    destruct (dump _ fs) as [fs2 [e|]]; [injection E as _ <- _; reflexivity|].
    destruct (truncate _ fs2) as [[j1 fs3] [e|]]; injection E as _ <- _; reflexivity.
  - unfold Close, Lock in E. cbn [ready mu negb] in E.
    destruct r0; cbn [negb] in E; [|injection E as _ <- _; reflexivity].
    destruct mu0; [discriminate|].
    destruct (close _ fs) as [[j1 fs2] [e|]]; injection E as _ <- _; reflexivity.
Qed.

End Discipline.

Lemma X21_witness :
  kvJournal (sample.after (Coalesce (sample.after (Set_ sample.kv0 sample.fs0 "c" sample.VChan)).1
                                    sample.fs0)).1
    = kvJournal (sample.after (Set_ sample.kv0 sample.fs0 "c" sample.VChan)).1 /\
  (sample.after (Coalesce (sample.after (Set_ sample.kv0 sample.fs0 "c" sample.VChan)).1
                          sample.fs0)).2
    !! name (kvJournal (sample.after (Set_ sample.kv0 sample.fs0 "c" sample.VChan)).1)
    = sample.fs0 !! name (kvJournal (sample.after (Set_ sample.kv0 sample.fs0 "c" sample.VChan)).1) /\
  memory (sample.after (Coalesce (sample.after (Set_ sample.kv0 sample.fs0 "c" sample.VChan)).1
                                 sample.fs0)).1
    = memory (sample.after (Set_ sample.kv0 sample.fs0 "c" sample.VChan)).1 /\
  ready (sample.after (Coalesce (sample.after (Set_ sample.kv0 sample.fs0 "c" sample.VChan)).1
                                sample.fs0)).1 = true /\
  mu (sample.after (Coalesce (sample.after (Set_ sample.kv0 sample.fs0 "c" sample.VChan)).1
                             sample.fs0)).1 = false.
Proof.
  apply (X21_failed_dump_keeps_journal
           (sample.after (Set_ sample.kv0 sample.fs0 "c" sample.VChan)).1 _ sample.fs0 _
           (Wrap "encoding map" ErrGob)).
  - vm_compute. reflexivity.
  - vm_compute. reflexivity.
  - vm_compute. discriminate.
  - vm_compute. reflexivity.
Defined.

Lemma X22_witness :
  exists r kv1 fs1, Coalesce sample.kv1 sample.fs1 = Returns r kv1 fs1 /\ mu kv1 = false.
Proof.
  destruct (X22_calls_return_with_mutex_released sample.kv1 sample.fs1 "foo" sample.VNil)
    as (_ & _ & _ & Hc & _); [vm_compute; reflexivity..|].
  exact Hc.
Defined.

Lemma X23_witness :
  memory (sample.after (Unset sample.kv1 sample.fs1 "foo")).1 = memory sample.kv1.
Proof.
  destruct (X23_only_Set_changes_the_map sample.kv1 sample.fs1 "foo") as (_ & Hu & _).
  apply (Hu (true, None) _ (sample.after (Unset sample.kv1 sample.fs1 "foo")).2).
  vm_compute. reflexivity.
Defined.

Section NewShape.
Context {any : Type} `{GobRoundTrip any} `{Disk}.

(** X24: a store that [New] returns, for two different paths, is
    ready with the mutex free; its journal is a new, empty writer whose
    handle is on the journal file; the journal file is empty; and the
    snapshot file decodes. *)
Theorem X24_New_returns_idle_store (dbName walName : string) (fs fs' : os.files)
    (kv : KV any) :
  dbName <> walName -> New dbName walName fs = (inl kv, fs') ->
  ready kv = true /\ mu kv = false /\ fileName kv = dbName /\
  kvJournal kv = mkJournal (os.mkFile walName false) bufio.NewWriter walName /\
  fs' !! walName = Some [] /\
  (exists snap m0, fs' !! dbName = Some snap /\ gobDecodeMap snap = Some m0) /\
  idle kv /\ restartable kv fs'.
Proof.
  intros Hne E.
  destruct (New_idle_restartable _ _ _ _ _ Hne E) as [Hidle Hrest].
  assert (Hshape : fileName kv = dbName /\
                   kvJournal kv = mkJournal (os.mkFile walName false) bufio.NewWriter walName /\
                   fs' !! walName = Some []).
  { unfold New in E.
    destruct (if os.Stat dbName fs then _ else _) as [[m0|e0] fs1]; [|discriminate].
    destruct (newJournal walName m0 fs1) as [[[j|e1] m] fs2] eqn:Ej; [|discriminate].
    injection E as <- <-. apply newJournal_ok in Ej as [-> ->]. cbn.
    split; [reflexivity|]. split; [reflexivity|]. apply lookup_insert_eq. }
  destruct Hshape as (Hf & Hj & Hwal).
  destruct Hidle as (Hr & Hm & Hp & Hd). pose proof Hrest as [(snap & m0 & Hsnap & Hdec) _].
  split; [exact Hr|]. split; [exact Hm|]. split; [exact Hf|]. split; [exact Hj|].
  split; [exact Hwal|]. split; [exists snap, m0; rewrite <- Hf; auto|].
  split; [repeat split; assumption|exact Hrest].
Qed.

End NewShape.

Lemma X24_witness :
  ready sample.kv0 = true /\ mu sample.kv0 = false /\ fileName sample.kv0 = "test.db" /\
  kvJournal sample.kv0
    = mkJournal (os.mkFile "test.wal" false) bufio.NewWriter "test.wal" /\
  sample.fs0 !! "test.wal" = Some [] /\
  (exists snap m0, sample.fs0 !! "test.db" = Some snap /\
                   gobDecodeMap (any := sample.value) snap = Some m0) /\
  idle sample.kv0 /\ restartable sample.kv0 sample.fs0.
Proof.
  apply (X24_New_returns_idle_store "test.db" "test.wal" ∅ sample.fs0 sample.kv0).
  - discriminate.
  - vm_compute. reflexivity.
Defined.

Lemma X25_witness : idle sample.kv1 /\ restartable sample.kv1 sample.fs1.
Proof.
  apply (Set_idle_restartable sample.kv0 sample.kv1 sample.fs0 sample.fs1
           "foo" (sample.VByte x01) None).
  - exact sample_idle_kv0.
  - exact sample_restartable_kv0.
  - intros b [= <-]. vm_compute. reflexivity.
  - vm_compute. reflexivity.
Defined.

(** ** The scenario of TestBasic *)

Section Scenario.
Context {any : Type} `{GobRoundTrip any} `{Disk}.

Lemma New_fresh_synced (db wal : string) (fs fs' : os.files) (kv : KV any) :
  db <> wal -> fs !! db = None -> fs !! wal = None ->
  New db wal fs = (inl kv, fs') ->
  synced db wal kv fs' /\ memory kv = ∅.
Proof.
  intros Hne Hdb Hwal E. unfold New, os.Stat in E. rewrite Hdb in E.
  unfold createEmptyGob, encodeMapTo, os.Create in E.
  destruct (gobEncodeMap ∅) as [b|] eqn:Hb; [|discriminate].
  destruct (os.Write _ b _) as [[n e] fs1] eqn:Ew.
  destruct e; [discriminate|].
  apply os_Write_ok in Ew as [_ ->]. cbn [os.path] in E.
  rewrite lookup_insert_eq in E. cbn [default app] in E.
  unfold newJournal, os.Stat in E. rewrite !lookup_insert_ne in E by congruence.
  rewrite Hwal in E. cbn in E. injection E as <- <-.
  split; [|reflexivity]. split; [|split; [|split; reflexivity]].
  - unfold idle. cbn. auto.
  - exists b, ∅, []. cbn.
    split; [rewrite lookup_insert_ne by congruence; apply lookup_insert_eq|].
    split; [apply gob_map_roundtrip, Hb|]. split; [apply lookup_insert_eq|].
    intros _. exists []. repeat split. constructor.
Qed.

Lemma Set_synced (db wal : string) (kv kv1 : KV any) (fs fs1 : os.files)
    (key : string) (value : any) (b : list byte) (r : option error) :
  synced db wal kv fs ->
  gobEncodeTx (mkTx key value) = Some b -> Z.of_nat (length b) < 2 ^ 32 ->
  Set_ kv fs key value = Returns r kv1 fs1 ->
  synced db wal kv1 fs1 /\ memory kv1 = <[key := value]> (memory kv).
Proof.
  intros ((Hr & Hm & Hp & Hne) & (snap & m0 & disk & Hsnap & Hdec & Hdisk & Hinv) & Hf & Hn)
    Henc Hlen E.
  unfold Set_, Lock in E. rewrite Hr, Hm in E. cbn [negb] in E.
  destruct (log _ fs OpSet key value) as [[j1 fs1'] r1] eqn:El.
  injection E as _ <- <-. cbn [Unlock withMemory kvJournal] in El.
  destruct (log_fields _ _ _ _ _ _ _ _ El) as [Hfh Hname].
  split; [|reflexivity].
  split; [unfold idle; cbn; rewrite Hfh, Hname; auto|].
  split; [|cbn; split; congruence].
  destruct (log_exists _ _ _ _ _ _ _ _ (name (kvJournal kv)) El ltac:(eauto)) as [disk' Hd'].
  exists snap, m0, disk'. cbn [withJournal Unlock withMemory fileName kvJournal memory].
  split; [rewrite (log_other _ _ _ _ _ _ _ _ (fileName kv) El) by congruence; exact Hsnap|].
  split; [exact Hdec|]. rewrite Hname. split; [exact Hd'|]. intros He.
  rewrite <- Hp in Hdisk, Hd'.
  pose proof (log_no_pending_error _ _ _ _ _ _ _ _ _ _ Henc Hlen El Hdisk He) as ->.
  destruct (log_ok _ _ _ _ _ _ _ _ El Hdisk) as (b' & disk1 & Hb' & _ & He0 & _ & Hd1 & Hs).
  rewrite Henc in Hb'. injection Hb' as <-.
  destruct (Hinv He0) as (recs & Hrecs & Hvalid & Hmem).
  rewrite Hd1 in Hd'. injection Hd' as <-.
  exists (recs ++ [(OpSet, b)]). split; [|split].
  - rewrite Hs, app_assoc, Hrecs, frames_app. unfold frames at 3.
    cbn [map concat]. rewrite app_nil_r. reflexivity.
  - apply Forall_app. split; [exact Hvalid|]. constructor; [|constructor].
    eapply validRecord_encoded; [unfold OpSet; lia|exact Henc|exact Hlen].
  - rewrite replay_app. unfold replay at 1. cbn [fold_left].
    rewrite (applyRecord_Set _ _ _ _ Henc), Hmem. reflexivity.
Qed.

Lemma Flush_synced (db wal : string) (kv kv1 : KV any) (fs fs1 : os.files) :
  synced db wal kv fs ->
  Flush kv fs = Returns None kv1 fs1 ->
  synced db wal kv1 fs1 /\ memory kv1 = memory kv.
Proof.
  intros ((Hr & Hm & Hp & Hne) & (snap & m0 & disk & Hsnap & Hdec & Hdisk & Hinv) & Hf & Hn) E.
  unfold Flush in E. rewrite Hr in E. cbn [negb] in E.
  destruct (bufio.Flush _ _ fs) as [[b fs1'] [e|]] eqn:Ef; [discriminate|].
  unfold Lock in E. cbn in E. rewrite Hm in E. injection E as <- <-.
  destruct (Hinv (Flush_ok_err _ _ _ _ _ Ef)) as (recs & Hrecs & Hvalid & Hmem).
  rewrite <- Hp in Hdisk.
  destruct (Flush_ok _ _ _ _ _ _ Ef Hdisk) as (_ & -> & Hwal).
  rewrite Hrecs, Hp in Hwal.
  split; [|reflexivity].
  split; [unfold idle; cbn; auto|]. split; [|cbn; auto].
  exists snap, m0, (frames recs). cbn.
  split; [rewrite (Flush_other _ _ _ _ _ _ (fileName kv) Ef) by congruence; exact Hsnap|].
  split; [exact Hdec|]. split; [exact Hwal|].
  intros _. exists recs. rewrite app_nil_r. auto.
Qed.

Lemma Close_then_New (db wal : string) (kv kv1 : KV any) (fs fs1 : os.files) :
  synced db wal kv fs ->
  Close kv fs = Returns None kv1 fs1 ->
  exists kv2 fs2,
    New db wal fs1 = (inl kv2, fs2) /\ memory kv2 = memory kv /\
    idle kv2 /\ fileName kv2 = db /\ name (kvJournal kv2) = wal.
Proof.
  intros ((Hr & Hm & Hp & Hne) & (snap & m0 & disk & Hsnap & Hdec & Hdisk & Hinv) & Hf & Hn) E.
  unfold Close, Lock in E. rewrite Hr, Hm in E. cbn [negb kvJournal] in E.
  unfold close, flush in E.
  destruct (bufio.Flush _ _ fs) as [[b fs1'] [e|]] eqn:Ef; [discriminate|].
  cbn in E. injection E as _ <-.
  destruct (Hinv (Flush_ok_err _ _ _ _ _ Ef)) as (recs & Hrecs & Hvalid & Hmem).
  rewrite <- Hp in Hdisk.
  destruct (Flush_ok _ _ _ _ _ _ Ef Hdisk) as (_ & _ & Hwal).
  rewrite Hrecs, Hp in Hwal.
  assert (Hsnap' : fs1' !! fileName kv = Some snap).
  { rewrite (Flush_other _ _ _ _ _ _ (fileName kv) Ef) by congruence. exact Hsnap. }
  subst db wal.
  rewrite (New_loaded _ _ _ _ _ Hsnap' Hdec).
  rewrite (newJournal_replayed _ _ _ _ (Stat_Some _ _ _ Hwal)
             (play_frames _ _ m0 _ Hvalid Hwal)).
  do 2 eexists. split; [reflexivity|]. cbn. split; [exact Hmem|].
  split; [unfold idle; cbn; auto|]. auto.
Qed.

Lemma Coalesce_synced (db wal : string) (kv kv1 : KV any) (fs fs1 : os.files) :
  idle kv -> fileName kv = db -> name (kvJournal kv) = wal ->
  Coalesce kv fs = Returns None kv1 fs1 ->
  synced db wal kv1 fs1 /\ memory kv1 = memory kv.
Proof.
  intros (Hr & Hm & Hp & Hne) Hf Hn E. unfold Coalesce, Lock in E. rewrite Hr, Hm in E.
  cbn [negb] in E.
  destruct (dump _ fs) as [fs' [e|]] eqn:Ed; [discriminate|].
  cbn [kvJournal] in E.
  destruct (truncate (kvJournal kv) fs') as [[j fs2] [e|]] eqn:Et; [discriminate|].
  injection E as <- <-.
  apply dump_ok in Ed as (b & Hb & Hsnap & _). cbn [memory fileName] in *.
  apply truncate_ok in Et as (-> & Hwal & Hother).
  split; [|reflexivity].
  split; [repeat split; cbn; assumption|]. split; [|cbn; auto].
  exists b, (memory kv), []. cbn.
  split; [rewrite Hother by congruence; exact Hsnap|].
  split; [apply gob_map_roundtrip, Hb|]. split; [exact Hwal|].
  intros _. exists []. repeat split. constructor.
Qed.

(** X26: the scenario of [TestBasic], for any key and any value that
    gob encodes into fewer than 2^32 bytes.  On a disk without the two
    files: [New], [Set(k, v)], [Flush], [Close], each returning nil;
    then [New] over the same files succeeds and [Get(k)] answers
    (v, true, nil); and if [Coalesce] and [Close] on that store return
    nil, a third [New] succeeds, with the same map, and [Get(k)]
    answers (v, true, nil) again. *)
Theorem X26_TestBasic_scenario (db wal : string) (fs fs0 fs1 fs2 fs3 : os.files)
    (kv0 kv1 kv2 kv3 : KV any) (key : string) (value : any) (b : list byte) :
  db <> wal -> fs !! db = None -> fs !! wal = None ->
  gobEncodeTx (mkTx key value) = Some b -> Z.of_nat (length b) < 2 ^ 32 ->
  New db wal fs = (inl kv0, fs0) ->
  Set_ kv0 fs0 key value = Returns None kv1 fs1 ->
  Flush kv1 fs1 = Returns None kv2 fs2 ->
  Close kv2 fs2 = Returns None kv3 fs3 ->
  exists kv4 fs4,
    New db wal fs3 = (inl kv4, fs4) /\
    Get kv4 fs4 key = Returns (value, true, None) kv4 fs4 /\
    forall kv5 fs5 kv6 fs6,
      Coalesce kv4 fs4 = Returns None kv5 fs5 ->
      Close kv5 fs5 = Returns None kv6 fs6 ->
      exists kv7 fs7,
        New db wal fs6 = (inl kv7, fs7) /\
        memory kv7 = memory kv4 /\
        Get kv7 fs7 key = Returns (value, true, None) kv7 fs7.
Proof.
  intros Hne Hdb Hwal Henc Hlen ENew ESet EFlush EClose.
  destruct (New_fresh_synced _ _ _ _ _ Hne Hdb Hwal ENew) as [Hs0 Hm0].
  destruct (Set_synced _ _ _ _ _ _ _ _ _ _ Hs0 Henc Hlen ESet) as [Hs1 Hm1].
  destruct (Flush_synced _ _ _ _ _ _ Hs1 EFlush) as [Hs2 Hm2].
  destruct (Close_then_New _ _ _ _ _ _ Hs2 EClose)
    as (kv4 & fs4 & ENew4 & Hm4 & Hi4 & Hf4 & Hn4).
  assert (Hk4 : memory kv4 !! key = Some value).
  { rewrite Hm4, Hm2, Hm1. apply lookup_insert_eq. }
  assert (HGet : forall (kv : KV any) fs', idle kv -> memory kv !! key = Some value ->
                   Get kv fs' key = Returns (value, true, None) kv fs').
  { intros [m f j mu0 r0] fs' (Hr & Hm & _) Hk. cbn in Hr, Hm, Hk. subst.
    unfold Get, Lock. cbn. rewrite Hk. reflexivity. }
  exists kv4, fs4. split; [exact ENew4|]. split; [apply HGet; assumption|].
  intros kv5 fs5 kv6 fs6 ECoal EClose5.
  destruct (Coalesce_synced _ _ _ _ _ _ Hi4 Hf4 Hn4 ECoal) as [Hs5 Hm5].
  destruct (Close_then_New _ _ _ _ _ _ Hs5 EClose5)
    as (kv7 & fs7 & ENew7 & Hm7 & Hi7 & _ & _).
  exists kv7, fs7. split; [exact ENew7|]. split; [congruence|].
  apply HGet; [exact Hi7|]. rewrite Hm7, Hm5. exact Hk4.
Qed.

End Scenario.

Lemma X26_witness :
  exists kv4 fs4,
    New "test.db" "test.wal" (sample.after (Close sample.kv2 sample.fs2)).2 = (inl kv4, fs4) /\
    Get kv4 fs4 "foo" = Returns (sample.VByte x01, true, None) kv4 fs4 /\
    forall kv5 fs5 kv6 fs6,
      Coalesce kv4 fs4 = Returns None kv5 fs5 ->
      Close kv5 fs5 = Returns None kv6 fs6 ->
      exists kv7 fs7,
        New "test.db" "test.wal" fs6 = (inl kv7, fs7) /\
        memory kv7 = memory kv4 /\
        Get kv7 fs7 "foo" = Returns (sample.VByte x01, true, None) kv7 fs7.
Proof.
  apply (X26_TestBasic_scenario "test.db" "test.wal" ∅ sample.fs0 sample.fs1 sample.fs2
           (sample.after (Close sample.kv2 sample.fs2)).2
           sample.kv0 sample.kv1 sample.kv2 (sample.after (Close sample.kv2 sample.fs2)).1
           "foo" (sample.VByte x01) [x01; x01; x66; x6f; x6f]).
  - discriminate.
  - reflexivity.
  - reflexivity.
  - reflexivity.
  - vm_compute. reflexivity.
  - vm_compute. reflexivity.
  - vm_compute. reflexivity.
  - vm_compute. reflexivity.
  - vm_compute. reflexivity.
Defined.

(** ** Set, Flush and restart on files that cannot be loaded *)

(** C2, as it is written, fails on a store that is open and ready:
    after [Set("c", ch)] with a value gob refuses (the error is
    dropped) and the [Coalesce] that then fails in the dump, the
    snapshot file has been truncated.  [Set("foo", 1)] and [Flush]
    return nil on that store, and [New] over the same files fails on
    the snapshot. *)
Lemma C2_counterexample :
  New "test.db" "test.wal" ∅ = (inl sample.kv0, sample.fs0) /\
  Set_ sample.kv0 sample.fs0 "c" sample.VChan
    = Returns None sample.bad1.1 sample.bad1.2 /\
  Coalesce sample.bad1.1 sample.bad1.2
    = Returns (Some (Wrap "dumping memory" (Wrap "encoding map" ErrGob)))
        sample.bad2.1 sample.bad2.2 /\
  ready sample.bad2.1 = true /\ mu sample.bad2.1 = false /\
  gobEncodeTx (mkTx "foo" (sample.VByte x01)) = Some [x01; x01; x66; x6f; x6f] /\
  Set_ sample.bad2.1 sample.bad2.2 "foo" (sample.VByte x01)
    = Returns None sample.bad3.1 sample.bad3.2 /\
  Flush sample.bad3.1 sample.bad3.2 = Returns None sample.bad4.1 sample.bad4.2 /\
  New (any := sample.value) "test.db" "test.wal" sample.bad4.2
    = (inr (Wrap "loading from existing gob" (Wrap "decoding map" ErrGob)), sample.bad4.2) /\
  ~ (exists kv3 fs3,
       New "test.db" "test.wal" sample.bad4.2 = (inl kv3, fs3) /\
       Get kv3 fs3 "foo" = Returns (sample.VByte x01, true, None) kv3 fs3).
Proof.
  assert (HN : New (any := sample.value) "test.db" "test.wal" sample.bad4.2
               = (inr (Wrap "loading from existing gob" (Wrap "decoding map" ErrGob)),
                  sample.bad4.2)) by (vm_compute; reflexivity).
  split; [vm_compute; reflexivity|]. split; [vm_compute; reflexivity|].
  split; [vm_compute; reflexivity|]. split; [vm_compute; reflexivity|].
  split; [vm_compute; reflexivity|]. split; [reflexivity|].
  split; [vm_compute; reflexivity|]. split; [vm_compute; reflexivity|].
  split; [exact HN|].
  intros (kv3 & fs3 & E & _). rewrite HN in E. discriminate.
Qed.
